(** * ACME v02 networking ([letsencrypt/client/network2.py])

    A shallow embedding of the [Network] class: the response classifier
    [_check_response], the HTTP layer [_get]/[_post], the reconcilers
    [_regr_from_response]/[_authzr_from_response], the flows built on them
    and the polling loop of [poll_and_request_issuance].

    Python exceptions are an explicit error type, the network and the
    wall clock are an explicit [World] threaded through a small state and
    error monad, and the modules the file imports (messages2, challenges,
    M2Crypto, werkzeug, heapq) are taken through interfaces. *)

From Stdlib Require Import ZArith List String Ascii Bool Lia Permutation.
Import ListNotations.

Set Warnings "-register-all".

Local Open Scope string_scope.
Local Open Scope Z_scope.

(** ** Plain data *)

Definition URI := string.
Definition PublicKey := string.
Definition Identifier := string.
Definition Status := string.
Definition X509 := string.
Definition CSR := string.

(** What [response.json()] returns. *)
Inductive JSON :=
| JNull
| JBool (b : bool)
| JNum (n : Z)
| JStr (s : string)
| JArr (items : list JSON)
| JObj (fields : list (string * JSON)).

(** The account key [self.key]; [key.public()] is its public half. *)
Record JWK := { jwk_secret : string; jwk_public : PublicKey }.

Definition public (k : JWK) : PublicKey := jwk_public k.

(** The double quote character, for messages that carry one. *)
Definition dq : string := String (ascii_of_nat 34) EmptyString.

(** *** ASCII helpers used by header lookup and [int()] *)

Definition lower_ascii (c : ascii) : ascii :=
  let n := nat_of_ascii c in
  if ((65 <=? n) && (n <=? 90))%nat then ascii_of_nat (n + 32) else c.

Fixpoint lower (s : string) : string :=
  match s with
  | EmptyString => EmptyString
  | String c s' => String (lower_ascii c) (lower s')
  end.

Fixpoint assoc {V : Type} (k : string) (l : list (string * V)) : option V :=
  match l with
  | [] => None
  | (k', v) :: l' => if String.eqb k k' then Some v else assoc k l'
  end.

Fixpoint assoc_ci {V : Type} (k : string) (l : list (string * V)) : option V :=
  match l with
  | [] => None
  | (k', v) :: l' => if String.eqb (lower k) (lower k') then Some v else assoc_ci k l'
  end.

(** ** messages2 bodies and resources *)

Module Registration.
Record t := { key : option PublicKey; contact : list string }.
End Registration.

Module Authorization.
Record t := { identifier : Identifier;
              key : option PublicKey;
              status : option Status }.
End Authorization.

Module Challenge.
Record t := { typ : string; state : string }.
End Challenge.

Module RegistrationResource.
Record t := { body : Registration.t;
              uri : option URI;
              new_authz_uri : URI;
              terms_of_service : option URI }.
End RegistrationResource.

Module AuthorizationResource.
Record t := { body : Authorization.t;
              uri : option URI;
              new_cert_uri : URI }.
End AuthorizationResource.

Module ChallengeResource.
Record t := { body : Challenge.t; uri : URI }.

(** [challr.update(body=...)] *)
Definition update_body (c : t) (b : Challenge.t) : t :=
  {| body := b; uri := uri c |}.
End ChallengeResource.

Module CertificateResource.
Record t := { authzrs : list AuthorizationResource.t;
              body : X509;
              uri : option URI;
              cert_chain_uri : URI }.

(** [certr.update(body=...)] *)
Definition update_body (c : t) (b : X509) : t :=
  {| authzrs := authzrs c; body := b; uri := uri c;
     cert_chain_uri := cert_chain_uri c |}.
End CertificateResource.

(** [messages2.Error], the server-declared problem record. *)
Record messages2_Error := { error_typ : string; error_detail : string }.

(** [messages2.Revocation.When] *)
Inductive When := NOW | At (t : Z).

(** ** HTTP responses as [requests] presents them *)

Module Response.
Record t := { status_code : Z;
              headers : list (string * string);
              links : list (string * URI);
              text : string;
              json : option JSON }.

(** [response.ok]: the status is not a 4xx or 5xx one. *)
Definition ok (r : t) : bool :=
  negb ((400 <=? status_code r) && (status_code r <? 600)).

(** [response.headers.get(name)]; the dictionary ignores case. *)
Definition header (r : t) (name : string) : option string :=
  assoc_ci name (headers r).

(** [response.links[rel]['url']], [None] standing for [KeyError]. *)
Definition link (r : t) (rel : string) : option URI :=
  assoc rel (links r).
End Response.

(** ** Exceptions *)

Inductive NetworkErrorArg :=
| NEMessage (msg : string)
| NEResponse (r : Response.t)
| NEResponseError (r : Response.t)
| NERequest (what : string).

Inductive Offending :=
| OffRegr (r : RegistrationResource.t)
| OffAuthzr (a : AuthorizationResource.t)
| OffText (s : string).

Inductive Exn :=
| NetworkError (arg : NetworkErrorArg)      (* errors.NetworkError *)
| Messages2Error (e : messages2_Error)      (* messages2.Error *)
| UnexpectedUpdate (arg : Offending)        (* errors.UnexpectedUpdate *)
| RequestException (what : string)          (* requests.exceptions *)
| DeserializationError                      (* jose.DeserializationError *)
| X509Error                                 (* M2Crypto.X509.X509Error *)
| ValueError
| KeyError (k : string)
| IndexError
| TypeError
| OverflowError
| AssertionError.

(** The three fault kinds of the specification, as the exception classes
    of the code: the classifier raises [errors.NetworkError] where the
    specification says TransportFault and [messages2.Error] where it says
    ProtocolError. *)
Inductive Fault := TransportFault | ProtocolError | UnexpectedUpdateFault.

Definition fault_of (e : Exn) : option Fault :=
  match e with
  | NetworkError _ => Some TransportFault
  | Messages2Error _ => Some ProtocolError
  | UnexpectedUpdate _ => Some UnexpectedUpdateFault
  | _ => None
  end.

(** Result of code that touches neither the network nor the clock. *)
Inductive Result (A : Type) :=
| Ok (a : A)
| Err (e : Exn).
Arguments Ok {A} a.
Arguments Err {A} e.

Definition rbind {A B} (r : Result A) (k : A -> Result B) : Result B :=
  match r with
  | Ok a => k a
  | Err e => Err e
  end.

Definition of_option {A} (o : option A) (e : Exn) : Result A :=
  match o with
  | Some a => Ok a
  | None => Err e
  end.

(** ** What the file imports but does not define *)

Class Externals := {
  (** [messages2.Registration.from_json]; [None] is DeserializationError *)
  Registration_from_json : JSON -> option Registration.t;
  (** [messages2.Authorization.from_json] *)
  Authorization_from_json : JSON -> option Authorization.t;
  (** [challenges.Challenge.from_json] *)
  Challenge_from_json : JSON -> option Challenge.t;
  (** [messages2.Error.from_json] *)
  Error_from_json : JSON -> option messages2_Error;
  (** [M2Crypto.X509.load_cert_der_string]; [None] is X509Error *)
  load_cert_der_string : string -> option X509;
  (** [werkzeug.parse_date], in microseconds; [None] is Python's None *)
  parse_date : string -> option Z;
  (** [__debug__]: false when the interpreter strips assert statements *)
  debug : bool;
  (** [updated_authzr.uri == authzr], a URI compared with a resource *)
  uri_eq_authzr : option URI -> AuthorizationResource.t -> bool;
  (** [requests] takes the string for a URL it can send to; for any other
      string it raises MissingSchema, InvalidSchema or InvalidURL, all of
      them RequestException, before anything is sent *)
  valid_url : URI -> bool
}.

(** ** Constants of the class *)

Definition DER_CONTENT_TYPE : string := "application/plix-cert".
Definition JSON_CONTENT_TYPE : string := "application/json".
Definition JSON_ERROR_CONTENT_TYPE : string := "application/problem+json".

(** [httplib.OK] and [httplib.CREATED] *)
Definition OK : Z := 200.
Definition CREATED : Z := 201.

(** Modelled from the spec: [messages2.STATUS_VALID] is not in this file;
    the specification names the terminal success status "valid". *)
Definition STATUS_VALID : Status := "valid".

Record Network := { new_reg_uri : URI; key : JWK; alg : string }.

(** ** Decidable equality on the values the code compares *)

Definition option_string_eq_dec (a b : option string) : {a = b} + {a <> b}.
Proof. decide equality; apply string_dec. Defined.

Definition contact_eq_dec (a b : list string) : {a = b} + {a <> b} :=
  list_eq_dec string_dec a b.

Definition Authorization_eq_dec (a b : Authorization.t) : {a = b} + {a <> b}.
Proof.
  decide equality; try apply option_string_eq_dec; apply string_dec.
Defined.

Definition AuthorizationResource_eq_dec
  (a b : AuthorizationResource.t) : {a = b} + {a <> b}.
Proof.
  decide equality;
    [ apply string_dec | apply option_string_eq_dec | apply Authorization_eq_dec ].
Defined.

(** ** The world: clock, network, and what was sent *)

(** The messages the flows send: [messages2.Registration],
    [messages2.Authorization], a challenge response,
    [messages2.CertificateRequest] and [messages2.Revocation]. *)
Inductive Payload :=
| PRegistration (r : Registration.t)
| PAuthorization (a : Authorization.t)
| PChallengeResponse (r : string)
| PCertificateRequest (csr : CSR) (authorizations : list (option URI))
| PRevocation (revoke : When) (authorizations : list (option URI)).

(** What signing produces, [jose.JWS.sign(payload, key, alg)], kept as data. *)
Record JWS := { payload : Payload; signer : JWK; signed_with : string }.

Inductive Request :=
| GET (uri : option URI) (accept : option string)
| POST (uri : option URI) (data : JWS) (accept : option string).

(** What the network does with one request: an answer or a
    [requests.exceptions.RequestException], after some time. *)
Inductive Reply :=
| Responded (elapsed : N) (r : Response.t)
| Failed (elapsed : N) (what : string).

(** Times are microseconds on the clock [datetime.datetime.now()] reads,
    counted from [datetime.min], the first instant of year 1. *)
Inductive Event :=
| Sent (at_time : Z) (req : Request)
| Slept (at_time : Z) (seconds : Z).

Record World := { clock : Z; script : list Reply; trace : list Event }.

Inductive Outcome (A : Type) :=
| Ret (a : A)
| Raise (e : Exn)
| Blocked.
Arguments Ret {A} a.
Arguments Raise {A} e.
Arguments Blocked {A}.

Definition M (A : Type) : Type := World -> Outcome A * World.

Definition ret {A} (a : A) : M A := fun w => (Ret a, w).

Definition raise {A} (e : Exn) : M A := fun w => (Raise e, w).

Definition bind {A B} (m : M A) (k : A -> M B) : M B :=
  fun w =>
    match m w with
    | (Ret a, w') => k a w'
    | (Raise e, w') => (Raise e, w')
    | (Blocked, w') => (Blocked, w')
    end.

Definition lift {A} (r : Result A) : M A :=
  match r with
  | Ok a => ret a
  | Err e => raise e
  end.

Declare Scope py_scope.
Delimit Scope py_scope with py.
Notation "x <- m ;; k" := (bind m (fun x => k))
  (at level 100, m at next level, right associativity) : py_scope.
Notation "' p <- m ;; k" := (bind m (fun x => match x with p => k end))
  (at level 100, p pattern, m at next level, right associativity) : py_scope.
Notation "m ;; k" := (bind m (fun _ => k))
  (at level 100, right associativity) : py_scope.
Notation "'let?' x := r 'in' k" := (rbind r (fun x => k))
  (at level 100, x name, r at next level, right associativity).
Local Open Scope py_scope.

(** [except requests.exceptions.RequestException as error:
       raise errors.NetworkError(error)] *)
Definition except_RequestException {A} (m : M A) : M A :=
  fun w =>
    match m w with
    | (Raise (RequestException what), w') =>
        (Raise (NetworkError (NERequest what)), w')
    | r => r
    end.

(** [datetime.datetime.now()] *)
Definition datetime_now : M Z := fun w => (Ret (clock w), w).

(** [time.sleep(seconds)] *)
Definition time_sleep (seconds : Z) : M unit :=
  fun w =>
    (Ret tt, {| clock := clock w + seconds * 1000000;
                script := script w;
                trace := (trace w ++ [Slept (clock w) seconds])%list |}).

(** The URI is one [requests] sends to: there is one, and it is a URL. *)
Definition sendable {X : Externals} (uri : option URI) : bool :=
  match uri with
  | Some u => valid_url u
  | None => false
  end.

(** One call of [requests.get] or [requests.post].  A call without a URI,
    or with a string that is no URL, fails inside [requests] before
    anything is sent; otherwise the request goes out and the next scripted
    reply comes back.  With no reply left the call has not come back: the
    run stops there as [Blocked]. *)
Definition requests_call {X : Externals} (uri : option URI) (req : Request)
  : M Response.t :=
  fun w =>
    if sendable uri then
      let sent := (trace w ++ [Sent (clock w) req])%list in
      match script w with
      | [] => (Blocked, {| clock := clock w; script := []; trace := sent |})
      | Responded dt r :: rest =>
          (Ret r, {| clock := clock w + Z.of_N dt; script := rest;
                     trace := sent |})
      | Failed dt what :: rest =>
          (Raise (RequestException what),
           {| clock := clock w + Z.of_N dt; script := rest; trace := sent |})
      end
    else (Raise (RequestException "Invalid URL"), w).

Definition requests_get {X : Externals} (uri : option URI) (accept : option string) :=
  requests_call uri (GET uri accept).

Definition requests_post {X : Externals} (uri : option URI) (data : JWS)
    (accept : option string) :=
  requests_call uri (POST uri data accept).

(** *** [datetime] arithmetic *)

(** One past [datetime.max], the last microsecond of year 9999:
    [datetime.max.toordinal()] is 3652059 days. *)
Definition DATETIME_END : Z := 3652059 * 86400 * 1000000.

(** [now + datetime.timedelta(seconds=seconds)] for a clock reading [now];
    [None] is OverflowError, raised by [timedelta] when the days of the
    delay exceed 999999999 in magnitude and by the addition when the sum is
    no date of the years 1 to 9999. *)
Definition datetime_plus_seconds (now seconds : Z) : option Z :=
  let days := seconds / 86400 in
  if (days <? -999999999) || (999999999 <? days) then None
  else
    let sum := now + seconds * 1000000 in
    if (0 <=? sum) && (sum <? DATETIME_END) then Some sum else None.

(** [timedelta.seconds] of a positive difference of two clock readings: the
    seconds field of the normalised (days, seconds, microseconds) triple. *)
Definition timedelta_seconds (delta : Z) : Z := (delta / 1000000) mod 86400.

(** *** [int(s)] on a header value *)

Definition digit_val (c : ascii) : option Z :=
  let n := Z.of_nat (nat_of_ascii c) in
  if (48 <=? n) && (n <=? 57) then Some (n - 48) else None.

Fixpoint parse_digits (s : string) (acc : Z) : option Z :=
  match s with
  | EmptyString => Some acc
  | String c s' =>
      match digit_val c with
      | Some d => parse_digits s' (10 * acc + d)
      | None => None
      end
  end.

Definition is_space (c : ascii) : bool :=
  let n := nat_of_ascii c in
  ((n =? 32) || ((9 <=? n) && (n <=? 13)))%nat.

Fixpoint lstrip (s : string) : string :=
  match s with
  | String c s' => if is_space c then lstrip s' else s
  | EmptyString => EmptyString
  end.

Fixpoint rstrip (s : string) : string :=
  match s with
  | EmptyString => EmptyString
  | String c s' =>
      match rstrip s' with
      | EmptyString => if is_space c then EmptyString else String c EmptyString
      | r => String c r
      end
  end.

(** [int(s)]: optional blanks around an optional sign and decimal digits;
    [None] is ValueError. *)
Definition py_int (s : string) : option Z :=
  match lstrip (rstrip s) with
  | EmptyString => None
  | String c rest =>
      if Ascii.eqb c "-" then
        match rest with
        | EmptyString => None
        | _ => option_map Z.opp (parse_digits rest 0)
        end
      else if Ascii.eqb c "+" then
        match rest with
        | EmptyString => None
        | _ => parse_digits rest 0
        end
      else parse_digits (String c rest) 0
  end.

(** ** [heapq] on a list of (due time, authorization) pairs

    Only what the loop relies on is required of the two operations: a
    pop takes one entry out, a push puts one in.  The order in which equal
    keys come out is left to the instance, as it is in Python, where it
    falls to comparing the resources themselves. *)
Definition Entry : Type := Z * AuthorizationResource.t.

Class Heapq := {
  heappush : list Entry -> Entry -> list Entry;
  heappop : list Entry -> option (Entry * list Entry);
  heappop_some : forall h, h <> [] -> heappop h <> None;
  heappop_perm : forall h x h', heappop h = Some (x, h') -> Permutation h (x :: h');
  heappush_perm : forall h x, Permutation (heappush h x) (x :: h)
}.

(** ** The [Network] class *)

Section Network.
Context {X : Externals} {H : Heapq}.

(** [assert cond] *)
Definition assert_ (cond : bool) : M unit :=
  if debug && negb cond then raise AssertionError else ret tt.

(** [_wrap_in_jws] *)
Definition _wrap_in_jws (self : Network) (data : Payload) : JWS :=
  {| payload := data; signer := key self; signed_with := alg self |}.

(** The local [jobj] of [_check_response]: what [response.json()] returns,
    or None when it raises ValueError.  For the body [null] it returns None
    too, which [if jobj is not None] then takes for a body that did not
    parse. *)
Definition jobj_of (response : Response.t) : option JSON :=
  match Response.json response with
  | Some JNull => None
  | other => other
  end.

(** [_check_response].  The [logging.debug] calls have no effect on the
    result and are left out. *)
Definition _check_response (response : Response.t)
    (content_type : option string) : Result unit :=
  match Response.header response "content-type" with
  | None => Err (KeyError "content-type")
  | Some response_ct =>
      let jobj := jobj_of response in
      if negb (Response.ok response) then
        match jobj with
        | Some j =>
            match Error_from_json j with
            | Some e => Err (Messages2Error e)
            | None => Err (NetworkError (NEResponseError response))
            end
        | None => Err (NetworkError (NEResponse response))
        end
      else
        match content_type with
        | Some ct =>
            if negb (String.eqb response_ct ct)
               && negb (String.eqb ct JSON_CONTENT_TYPE)
            then Err (NetworkError (NEMessage
                   ("Unexpected response Content-Type: " ++ response_ct)))
            else Ok tt
        | None => Ok tt
        end
  end.

(** [_get] *)
Definition _get (uri : option URI) (content_type : option string)
    (accept : option string) : M Response.t :=
  response <- except_RequestException (requests_get uri accept) ;;
  lift (_check_response response content_type) ;;
  ret response.

(** [_post] *)
Definition _post (uri : option URI) (data : JWS)
    (content_type : option string) (accept : option string) : M Response.t :=
  response <- except_RequestException (requests_post uri data accept) ;;
  lift (_check_response response content_type) ;;
  ret response.

Definition next_link_missing : string := dq ++ "next" ++ dq ++ " link missing".

(** [response.headers.get('location', uri)] *)
Definition location_or (response : Response.t) (uri : option URI) : option URI :=
  match Response.header response "location" with
  | Some l => Some l
  | None => uri
  end.

(** [_regr_from_response] *)
Definition _regr_from_response (response : Response.t) (uri : option URI)
    (new_authz_uri : option URI) : Result RegistrationResource.t :=
  let? terms_of_service :=
    match Response.link response "terms-of-service" with
    | Some _ =>
        match Response.link response "next" with
        | Some u => Ok (Some u)
        | None => Err (KeyError "next")
        end
    | None => Ok None
    end in
  let? new_authz_uri :=
    match new_authz_uri with
    | Some u => Ok u
    | None => of_option (Response.link response "next")
                        (NetworkError (NEMessage next_link_missing))
    end in
  let? jobj := of_option (Response.json response) ValueError in
  let? body := of_option (Registration_from_json jobj) DeserializationError in
  Ok {| RegistrationResource.body := body;
        RegistrationResource.uri := location_or response uri;
        RegistrationResource.new_authz_uri := new_authz_uri;
        RegistrationResource.terms_of_service := terms_of_service |}.

(** [register] *)
Definition register (self : Network) (contact : list string)
    : M RegistrationResource.t :=
  let new_reg := {| Registration.key := None; Registration.contact := contact |} in
  response <- _post (Some (new_reg_uri self))
                    (_wrap_in_jws self (PRegistration new_reg))
                    (Some JSON_CONTENT_TYPE) None ;;
  assert_ (Response.status_code response =? CREATED) ;;
  regr <- lift (_regr_from_response response None None) ;;
  if option_string_eq_dec (Registration.key (RegistrationResource.body regr))
                          (Some (public (key self)))
  then if contact_eq_dec (Registration.contact (RegistrationResource.body regr))
                         contact
       then ret regr
       else raise (UnexpectedUpdate (OffRegr regr))
  else raise (UnexpectedUpdate (OffRegr regr)).

(** [update_registration] *)
Definition update_registration (self : Network) (regr : RegistrationResource.t)
    : M RegistrationResource.t :=
  response <- _post (RegistrationResource.uri regr)
                    (_wrap_in_jws self (PRegistration (RegistrationResource.body regr)))
                    (Some JSON_CONTENT_TYPE) None ;;
  lift (_regr_from_response response (RegistrationResource.uri regr)
          (Some (RegistrationResource.new_authz_uri regr))).

(** [_authzr_from_response] *)
Definition _authzr_from_response (self : Network) (response : Response.t)
    (identifier : Identifier) (uri : option URI) (new_cert_uri : option URI)
    : Result AuthorizationResource.t :=
  let? new_cert_uri :=
    match new_cert_uri with
    | Some u => Ok u
    | None => of_option (Response.link response "next")
                        (NetworkError (NEMessage next_link_missing))
    end in
  let? jobj := of_option (Response.json response) ValueError in
  let? body := of_option (Authorization_from_json jobj) DeserializationError in
  let authzr := {| AuthorizationResource.body := body;
                   AuthorizationResource.uri := location_or response uri;
                   AuthorizationResource.new_cert_uri := new_cert_uri |} in
  if option_string_eq_dec (Authorization.key body) (Some (public (key self)))
  then if string_dec (Authorization.identifier body) identifier
       then Ok authzr
       else Err (UnexpectedUpdate (OffAuthzr authzr))
  else Err (UnexpectedUpdate (OffAuthzr authzr)).

(** [request_challenges] *)
Definition request_challenges (self : Network) (identifier : Identifier)
    (regr : RegistrationResource.t) : M AuthorizationResource.t :=
  let new_authz := {| Authorization.identifier := identifier;
                      Authorization.key := None;
                      Authorization.status := None |} in
  response <- _post (Some (RegistrationResource.new_authz_uri regr))
                    (_wrap_in_jws self (PAuthorization new_authz))
                    (Some JSON_CONTENT_TYPE) None ;;
  assert_ (Response.status_code response =? CREATED) ;;
  lift (_authzr_from_response self response identifier None None).

(** [answer_challenge] *)
Definition answer_challenge (self : Network) (challr : ChallengeResource.t)
    (response : string) : M ChallengeResource.t :=
  response <- _post (Some (ChallengeResource.uri challr))
                    (_wrap_in_jws self (PChallengeResponse response))
                    (Some JSON_CONTENT_TYPE) None ;;
  location <- lift (of_option (Response.header response "location")
                              (KeyError "location")) ;;
  if string_dec location (ChallengeResource.uri challr)
  then
    jobj <- lift (of_option (Response.json response) ValueError) ;;
    body <- lift (of_option (Challenge_from_json jobj) DeserializationError) ;;
    ret (ChallengeResource.update_body challr body)
  else raise (UnexpectedUpdate (OffText location)).

(** [answer_challenges]; [izip] stops at the shorter list. *)
Fixpoint answer_challenges (self : Network) (challrs : list ChallengeResource.t)
    (responses : list string) : M (list ChallengeResource.t) :=
  match challrs, responses with
  | challr :: challrs', response :: responses' =>
      c <- answer_challenge self challr response ;;
      cs <- answer_challenges self challrs' responses' ;;
      ret (c :: cs)
  | _, _ => ret []
  end.

(** [_retry_after].  Without the header the default is [str(mintime)],
    which [int] reads back as [mintime]. *)
Definition _retry_after (response : Response.t) (mintime : Z) : M (option Z) :=
  let after seconds :=
    (now <- datetime_now ;;
     match datetime_plus_seconds now seconds with
     | Some due => ret (Some due)
     | None => raise OverflowError
     end) in
  match Response.header response "Retry-After" with
  | None => after mintime
  | Some retry_after =>
      match py_int retry_after with
      | Some seconds => after seconds
      | None => ret (parse_date retry_after)
      end
  end.

(** [poll] *)
Definition poll (self : Network) (authzr : AuthorizationResource.t)
    : M (AuthorizationResource.t * Response.t) :=
  response <- _get (AuthorizationResource.uri authzr) (Some JSON_CONTENT_TYPE) None ;;
  updated_authzr <- lift (_authzr_from_response self response
                            (Authorization.identifier (AuthorizationResource.body authzr))
                            (AuthorizationResource.uri authzr)
                            (Some (AuthorizationResource.new_cert_uri authzr))) ;;
  ret (updated_authzr, response).

(** [request_issuance] *)
Definition request_issuance (self : Network) (csr : CSR)
    (authzrs : list AuthorizationResource.t) : M CertificateResource.t :=
  let req := PCertificateRequest csr (map AuthorizationResource.uri authzrs) in
  let content_type := DER_CONTENT_TYPE in
  first <- lift (of_option (hd_error authzrs) IndexError) ;;
  response <- _post (Some (AuthorizationResource.new_cert_uri first))
                    (_wrap_in_jws self req)
                    (Some content_type) (Some content_type) ;;
  body <- lift (of_option (load_cert_der_string (Response.text response)) X509Error) ;;
  cert_chain_uri <- lift (of_option (Response.link response "up") (KeyError "up")) ;;
  ret {| CertificateResource.authzrs := authzrs;
         CertificateResource.body := body;
         CertificateResource.uri := None;
         CertificateResource.cert_chain_uri := cert_chain_uri |}.

(** *** The polling loop *)

(** The dictionary [updated], keyed by authorization resources (which
    hash and compare by value). *)
Definition Dict : Type := list (AuthorizationResource.t * AuthorizationResource.t).

Fixpoint dict_get (d : Dict) (k : AuthorizationResource.t)
    : option AuthorizationResource.t :=
  match d with
  | [] => None
  | (k', v) :: d' => if AuthorizationResource_eq_dec k k' then Some v else dict_get d' k
  end.

Fixpoint dict_set (d : Dict) (k v : AuthorizationResource.t) : Dict :=
  match d with
  | [] => [(k, v)]
  | (k', v') :: d' =>
      if AuthorizationResource_eq_dec k k' then (k', v) :: d'
      else (k', v') :: dict_set d' k v
  end.

(** [dict((authzr, authzr) for authzr in authzrs)] *)
Definition dict_of (authzrs : list AuthorizationResource.t) : Dict :=
  fold_left (fun d a => dict_set d a a) authzrs [].

(** [tuple(updated[authzr] for authzr in authzrs)] *)
Fixpoint snapshots (updated : Dict) (authzrs : list AuthorizationResource.t)
    : Result (list AuthorizationResource.t) :=
  match authzrs with
  | [] => Ok []
  | a :: rest =>
      let? v := of_option (dict_get updated a) (KeyError "authzr") in
      let? vs := snapshots updated rest in
      Ok (v :: vs)
  end.

(** [[(datetime.datetime.now(), authzr) for authzr in authzrs]] *)
Fixpoint enqueue_all (authzrs : list AuthorizationResource.t) : M (list Entry) :=
  match authzrs with
  | [] => ret []
  | a :: rest =>
      now <- datetime_now ;;
      entries <- enqueue_all rest ;;
      ret ((now, a) :: entries)
  end.

(** [updated_authzr.body.status != messages2.STATUS_VALID] *)
Definition status_not_valid (a : AuthorizationResource.t) : bool :=
  if option_string_eq_dec (Authorization.status (AuthorizationResource.body a))
                          (Some STATUS_VALID)
  then false else true.

(** The body of [while waiting:].  When [_retry_after] hands back None
    (a Retry-After value [werkzeug] cannot read) the tuple [(None, authzr)]
    is pushed; the next comparison of None with a datetime, inside
    [heappush] or at [when > now], raises TypeError before anything else
    happens, which is where the model raises it. *)
Definition loop_body (self : Network) (mintime : Z)
    (waiting : list Entry) (updated : Dict) : M (list Entry * Dict) :=
  match heappop waiting with
  | None => raise IndexError
  | Some ((when, authzr), waiting) =>
      now <- datetime_now ;;
      (if when >? now
       then time_sleep (timedelta_seconds (when - now))
       else ret tt) ;;
      ' (updated_authzr, response) <- poll self authzr ;;
      let updated := dict_set updated authzr updated_authzr in
      assert_ (uri_eq_authzr (AuthorizationResource.uri updated_authzr) authzr) ;;
      if status_not_valid updated_authzr
      then
        retry <- _retry_after response mintime ;;
        match retry with
        | Some t => ret (heappush waiting (t, authzr), updated)
        | None => raise TypeError
        end
      else ret (waiting, updated)
  end.

(** [while waiting: ...], at most [fuel] rounds; a run cut short by the
    bound is [Blocked]. *)
Fixpoint poll_loop (fuel : nat) (self : Network) (mintime : Z)
    (waiting : list Entry) (updated : Dict) : M Dict :=
  match waiting with
  | [] => ret updated
  | _ :: _ =>
      match fuel with
      | O => fun w => (Blocked, w)
      | S fuel' =>
          ' (waiting', updated') <- loop_body self mintime waiting updated ;;
          poll_loop fuel' self mintime waiting' updated'
      end
  end.

(** [poll_and_request_issuance].  Every round of the loop that comes back
    has used up one scripted reply, so one round more than there are
    replies is as good as no bound. *)
Definition poll_and_request_issuance (self : Network) (csr : CSR)
    (authzrs : list AuthorizationResource.t) (mintime : Z)
    : M (CertificateResource.t * list AuthorizationResource.t) :=
  fun w =>
    (waiting <- enqueue_all authzrs ;;
     updated <- poll_loop (S (List.length (script w))) self mintime
                          waiting (dict_of authzrs) ;;
     certr <- request_issuance self csr authzrs ;;
     final <- lift (snapshots updated authzrs) ;;
     ret (certr, final)) w.

(** *** Certificates *)

(** [_get_cert] *)
Definition _get_cert (uri : option URI) : M (Response.t * X509) :=
  let content_type := DER_CONTENT_TYPE in
  response <- _get uri (Some content_type) (Some content_type) ;;
  cert <- lift (of_option (load_cert_der_string (Response.text response)) X509Error) ;;
  ret (response, cert).

(** [check_cert]; the test is [not response.headers['location'] != certr.uri]. *)
Definition check_cert (certr : CertificateResource.t) : M CertificateResource.t :=
  ' (response, cert) <- _get_cert (CertificateResource.uri certr) ;;
  location <- lift (of_option (Response.header response "location")
                              (KeyError "location")) ;;
  if negb (if option_string_eq_dec (Some location) (CertificateResource.uri certr)
           then false else true)
  then raise (UnexpectedUpdate (OffText (Response.text response)))
  else ret (CertificateResource.update_body certr cert).

(** [refresh] *)
Definition refresh (certr : CertificateResource.t) : M CertificateResource.t :=
  check_cert certr.

(** [fetch_chain] *)
Definition fetch_chain (certr : CertificateResource.t) : M (Response.t * X509) :=
  _get_cert (Some (CertificateResource.cert_chain_uri certr)).

(** [revoke] *)
Definition revoke (self : Network) (certr : CertificateResource.t)
    (when : When) : M unit :=
  let rev := PRevocation when
               (map AuthorizationResource.uri (CertificateResource.authzrs certr)) in
  response <- _post (CertificateResource.uri certr) (_wrap_in_jws self rev)
                    (Some JSON_CONTENT_TYPE) None ;;
  if Response.status_code response =? OK
  then ret tt
  else raise (NetworkError (NEMessage
                "Successful revocation must return HTTP OK status")).
End Network.

(** ** Stand-ins for running the code on concrete inputs *)

(** A priority queue kept as a list sorted by due time: [heappop] hands out
    the head, as [heapq.heappop] hands out [heap[0]]. *)
Fixpoint insert_entry (x : Entry) (h : list Entry) : list Entry :=
match h with
| [] => [x]
| y :: h' => if fst x <? fst y then x :: y :: h' else y :: insert_entry x h'
end.

Lemma insert_entry_perm (x : Entry) (h : list Entry) :
  Permutation (insert_entry x h) (x :: h).
Proof.
  induction h as [|y h IH]; simpl.
  - apply Permutation_refl.
  - destruct (fst x <? fst y).
    + apply Permutation_refl.
    + eapply Permutation_trans; [apply perm_skip, IH | apply perm_swap].
Qed.

#[refine] Instance sorted_list_heapq : Heapq :=
  {| heappush h x := insert_entry x h;
     heappop h := match h with [] => None | x :: h' => Some (x, h') end |}.
Proof.
  - intros [|x h] Hne; [congruence | discriminate].
  - intros [|y h] x h' E; [discriminate | injection E as -> ->; apply Permutation_refl].
  - intros h x. apply insert_entry_perm.
Defined.

Definition json_field (k : string) (j : JSON) : option JSON :=
match j with
| JObj fields => assoc k fields
| _ => None
end.

Definition json_string (k : string) (j : JSON) : option string :=
match json_field k j with
| Some (JStr s) => Some s
| _ => None
end.

Fixpoint json_strings (items : list JSON) : option (list string) :=
match items with
| [] => Some []
| JStr s :: rest => option_map (cons s) (json_strings rest)
| _ :: _ => None
end.

(** A small codec standing in for messages2, challenges, M2Crypto and
    werkzeug: bodies are flat JSON objects, any non-empty text is a
    certificate, and no date is readable.  A URI never equals a resource,
    and a URL is an http or https scheme with something after it.
    [assertions] is the interpreter's [__debug__]. *)
Definition sample (assertions : bool) : Externals :=
{| Registration_from_json j :=
     match json_field "contact" j with
     | Some (JArr items) =>
         option_map (fun c => {| Registration.key := json_string "key" j;
                                 Registration.contact := c |})
                    (json_strings items)
     | _ => None
     end;
   Authorization_from_json j :=
     option_map (fun i => {| Authorization.identifier := i;
                             Authorization.key := json_string "key" j;
                             Authorization.status := json_string "status" j |})
                (json_string "identifier" j);
   Challenge_from_json j :=
     match json_string "type" j, json_string "status" j with
     | Some t, Some s => Some {| Challenge.typ := t; Challenge.state := s |}
     | _, _ => None
     end;
   Error_from_json j :=
     match json_string "type" j, json_string "detail" j with
     | Some t, Some d => Some {| error_typ := t; error_detail := d |}
     | _, _ => None
     end;
   load_cert_der_string s := if String.eqb s "" then None else Some s;
   parse_date _ := None;
   debug := assertions;
   uri_eq_authzr _ _ := false;
   valid_url u :=
     (String.prefix "https://" u && negb (String.eqb u "https://"))
     || (String.prefix "http://" u && negb (String.eqb u "http://")) |}.

Definition account : Network :=
{| new_reg_uri := "https://ca/new-reg";
   key := {| jwk_secret := "d"; jwk_public := "K" |};
   alg := "RS256" |}.

Definition json_headers : list (string * string) :=
[("Content-Type", JSON_CONTENT_TYPE)].

(** What the server says about an authorization for example.com. *)
Definition authz_json (status : Status) : JSON :=
JObj [("identifier", JStr "example.com"); ("key", JStr "K"); ("status", JStr status)].

Definition authz_response (status : Status) (extra : list (string * string))
  : Response.t :=
{| Response.status_code := 200;
   Response.headers := (json_headers ++ extra)%list;
   Response.links := [];
   Response.text := "";
   Response.json := Some (authz_json status) |}.

Definition authzr_at (uri : URI) : AuthorizationResource.t :=
{| AuthorizationResource.body :=
     {| Authorization.identifier := "example.com";
        Authorization.key := Some "K";
        Authorization.status := Some "pending" |};
   AuthorizationResource.uri := Some uri;
   AuthorizationResource.new_cert_uri := "https://ca/new-cert" |}.

Definition cert_response : Response.t :=
{| Response.status_code := 201;
   Response.headers := [("Content-Type", DER_CONTENT_TYPE)];
   Response.links := [("up", "https://ca/chain")];
   Response.text := "DER";
   Response.json := None |}.

Definition world_at (t : Z) (replies : list Reply) : World :=
{| clock := t; script := replies; trace := [] |}.

(** * Properties *)

(** ** Reasoning about runs *)

Lemma bind_ret_inv {A B} (m : M A) (k : A -> M B) (w w' : World) (b : B) :
  bind m k w = (Ret b, w') ->
  exists a w1, m w = (Ret a, w1) /\ k a w1 = (Ret b, w').
Proof.
  unfold bind. destruct (m w) as [[a|e|] w1]; intros E; try discriminate.
  exists a, w1. split; [reflexivity | exact E].
Qed.

Lemma bind_step {A B} (m : M A) (k : A -> M B) (w w1 : World) (a : A) :
  m w = (Ret a, w1) -> bind m k w = k a w1.
Proof. unfold bind. intros ->. reflexivity. Qed.

Lemma bind_raise {A B} (m : M A) (k : A -> M B) (w w1 : World) (e : Exn) :
  m w = (Raise e, w1) -> bind m k w = (Raise e, w1).
Proof. unfold bind. intros ->. reflexivity. Qed.

Lemma lift_ret_inv {A} (r : Result A) (w w' : World) (a : A) :
  lift r w = (Ret a, w') -> r = Ok a /\ w' = w.
Proof.
  destruct r as [a0|e]; simpl; unfold ret, raise; intros E;
    [injection E as -> ->; split; reflexivity | discriminate].
Qed.

Lemma lift_ok {A} (a : A) (w : World) : lift (Ok a) w = (Ret a, w).
Proof. reflexivity. Qed.

Lemma of_option_ok {A} (o : option A) (e : Exn) (a : A) :
  of_option o e = Ok a -> o = Some a.
Proof. destruct o; simpl; congruence. Qed.

Lemma rbind_ok_inv {A B} (r : Result A) (k : A -> Result B) (b : B) :
  rbind r k = Ok b -> exists a, r = Ok a /\ k a = Ok b.
Proof.
  destruct r as [a|e]; simpl; intros E; [exists a; auto | discriminate].
Qed.

(** Peel one bind off a run that returned: the value, the world after the
    first step, and the equation of that step. *)
Tactic Notation "bind_inv" hyp(E) "as"
    simple_intropattern(a) simple_intropattern(w) simple_intropattern(Ea) :=
  apply bind_ret_inv in E; destruct E as (a & w & Ea & E).

Section Properties.
Context {X : Externals} {H : Heapq}.

(** ** The response classifier *)

Lemma check_response_success (response : Response.t) (expected response_ct : string) :
  Response.ok response = true ->
  Response.header response "content-type" = Some response_ct ->
  _check_response response (Some expected) =
    if negb (String.eqb response_ct expected)
       && negb (String.eqb expected JSON_CONTENT_TYPE)
    then Err (NetworkError (NEMessage
           ("Unexpected response Content-Type: " ++ response_ct)))
    else Ok tt.
Proof.
  intros Hok Hct. unfold _check_response. rewrite Hct, Hok. reflexivity.
Qed.

(** C5, as the code has it: for a response with a success status, what
    decides is the expected content type, not the body.  Where the expected
    type is not the generic JSON type, a TransportFault
    ([errors.NetworkError]) is raised exactly when the returned content type
    differs from it, whether or not the body parsed as JSON; where the
    generic JSON type is expected and the body parsed as JSON, a differing
    content type is tolerated. *)
Theorem check_response_mismatch_by_expected_type
    (response : Response.t) (expected response_ct : string) :
  Response.ok response = true ->
  Response.header response "content-type" = Some response_ct ->
  (expected <> JSON_CONTENT_TYPE ->
     ((exists e, _check_response response (Some expected) = Err e
                 /\ fault_of e = Some TransportFault)
      <-> response_ct <> expected)
     /\ (_check_response response (Some expected) = Ok tt
         <-> response_ct = expected))
  /\ (expected = JSON_CONTENT_TYPE ->
      Response.json response <> None ->
      _check_response response (Some expected) = Ok tt).
Proof.
  intros Hok Hct.
  rewrite (check_response_success _ _ _ Hok Hct).
  split.
  - intros Hne.
    destruct (String.eqb_spec expected JSON_CONTENT_TYPE) as [E2|_]; [contradiction|].
    destruct (String.eqb_spec response_ct expected) as [E1|E1]; simpl.
    + split; split.
      * intros (e & He & _). discriminate He.
      * intros Hd. contradiction.
      * intros _. exact E1.
      * reflexivity.
    + split; split.
      * intros _. exact E1.
      * intros _. eexists. split; reflexivity.
      * intros He. discriminate He.
      * intros He. contradiction.
  - intros -> _. rewrite String.eqb_refl, andb_false_r. reflexivity.
Qed.

(** ** The reconcilers *)

(** C6, as the code has it: with no next-action URI supplied by the caller
    and no "next" link in the response, the authorization reconciler raises
    [errors.NetworkError] with the message that the "next" link is missing,
    and so does the registration reconciler when the response carries no
    "terms-of-service" link either; that exception is the TransportFault of
    the error taxonomy, not a ProtocolError. *)
Theorem missing_next_link_is_transport_fault
    (self : Network) (response : Response.t) (identifier : Identifier)
    (uri : option URI) :
  Response.link response "next" = None ->
  _authzr_from_response self response identifier uri None
    = Err (NetworkError (NEMessage next_link_missing))
  /\ (Response.link response "terms-of-service" = None ->
      _regr_from_response response uri None
        = Err (NetworkError (NEMessage next_link_missing)))
  /\ fault_of (NetworkError (NEMessage next_link_missing)) = Some TransportFault.
Proof.
  intros Hnext. repeat split.
  - unfold _authzr_from_response. rewrite Hnext. reflexivity.
  - intros Htos. unfold _regr_from_response. rewrite Htos, Hnext. reflexivity.
Qed.

(** What [_regr_from_response] builds once the links are there and the body
    decodes. *)
Lemma regr_from_response_ok (response : Response.t) (uri new_authz_uri : option URI)
    (regr : RegistrationResource.t) :
  _regr_from_response response uri new_authz_uri = Ok regr ->
  exists jobj body,
    Response.json response = Some jobj /\
    Registration_from_json jobj = Some body /\
    RegistrationResource.body regr = body /\
    RegistrationResource.uri regr = location_or response uri /\
    RegistrationResource.terms_of_service regr =
      match Response.link response "terms-of-service" with
      | Some _ => Response.link response "next"
      | None => None
      end.
Proof.
  unfold _regr_from_response. intros E.
  apply rbind_ok_inv in E. destruct E as (tos & Etos & E).
  apply rbind_ok_inv in E. destruct E as (nau & Enau & E).
  apply rbind_ok_inv in E. destruct E as (jobj & Ej & E).
  apply rbind_ok_inv in E. destruct E as (body & Eb & E).
  apply of_option_ok in Ej, Eb. injection E as <-. simpl.
  exists jobj, body. repeat split; auto.
  destruct (Response.link response "terms-of-service");
    [destruct (Response.link response "next"); [|discriminate]|]; congruence.
Qed.

(** C10: when the response has a "terms-of-service" link, the resource's
    terms-of-service field is the URL of the "next" link (the URL of the
    "terms-of-service" link is not used), and the lookup fails with KeyError
    when there is no "next" link; without a "terms-of-service" link the
    field is None. *)
Theorem regr_terms_of_service_is_next_link
    (response : Response.t) (uri new_authz_uri : option URI) :
  (forall tos next jobj body,
      Response.link response "terms-of-service" = Some tos ->
      Response.link response "next" = Some next ->
      Response.json response = Some jobj ->
      Registration_from_json jobj = Some body ->
      exists regr,
        _regr_from_response response uri new_authz_uri = Ok regr /\
        RegistrationResource.terms_of_service regr = Some next)
  /\ (forall tos,
      Response.link response "terms-of-service" = Some tos ->
      Response.link response "next" = None ->
      _regr_from_response response uri new_authz_uri = Err (KeyError "next"))
  /\ (forall regr,
      Response.link response "terms-of-service" = None ->
      _regr_from_response response uri new_authz_uri = Ok regr ->
      RegistrationResource.terms_of_service regr = None).
Proof.
  repeat split.
  - intros tos next jobj body Htos Hnext Hj Hb.
    unfold _regr_from_response. rewrite Htos, Hnext, Hj. simpl. rewrite Hb. simpl.
    destruct new_authz_uri; simpl; eexists; split; reflexivity.
  - intros tos Htos Hnext. unfold _regr_from_response.
    rewrite Htos, Hnext. reflexivity.
  - intros regr Htos E.
    destruct (regr_from_response_ok _ _ _ _ E) as (j & b & _ & _ & _ & _ & Ht).
    rewrite Htos in Ht. exact Ht.
Qed.

(** ** The flows *)

Lemma assert_ret_inv (cond : bool) (w w' : World) :
  assert_ cond w = (Ret tt, w') -> w' = w /\ (debug = false \/ cond = true).
Proof.
  unfold assert_. destruct debug; destruct cond; simpl; unfold ret, raise;
    intros E; try discriminate; injection E as <-; auto.
Qed.

Lemma assert_pass (cond : bool) (w : World) :
  debug = false \/ cond = true -> assert_ cond w = (Ret tt, w).
Proof.
  unfold assert_. intros [-> | ->]; [reflexivity|].
  rewrite andb_false_r. reflexivity.
Qed.

(** C2: a registration that returns hands back a resource whose body has
    the account's public key and the contact list that was submitted; and
    when the resource reconciled from the server's answer differs in either
    field, [register] raises UnexpectedUpdate carrying it instead of
    returning. *)
Theorem register_checks_key_and_contact (self : Network) (contact : list string) :
  (forall w regr w',
      register self contact w = (Ret regr, w') ->
      Registration.key (RegistrationResource.body regr) = Some (public (key self))
      /\ Registration.contact (RegistrationResource.body regr) = contact)
  /\ (forall w response w1 regr,
      _post (Some (new_reg_uri self))
            (_wrap_in_jws self (PRegistration
               {| Registration.key := None; Registration.contact := contact |}))
            (Some JSON_CONTENT_TYPE) None w = (Ret response, w1) ->
      (debug = false \/ Response.status_code response = CREATED) ->
      _regr_from_response response None None = Ok regr ->
      (Registration.key (RegistrationResource.body regr) <> Some (public (key self))
       \/ Registration.contact (RegistrationResource.body regr) <> contact) ->
      register self contact w = (Raise (UnexpectedUpdate (OffRegr regr)), w1)).
Proof.
  split.
  - intros w regr w' E. unfold register in E.
    bind_inv E as response w1 _.
    bind_inv E as u w2 _.
    bind_inv E as regr0 w3 _.
    destruct (option_string_eq_dec _ _) as [Hk|Hk];
      [destruct (contact_eq_dec _ _) as [Hc|Hc]|];
      unfold ret, raise in E; try discriminate.
    injection E as <- <-. split; assumption.
  - intros w response w1 regr Hpost Hst Hregr Hdiff. unfold register.
    rewrite (bind_step _ _ _ _ _ Hpost).
    rewrite (bind_step _ _ w1 w1 tt).
    2:{ apply assert_pass. destruct Hst as [Hd|Hs]; [left; exact Hd|].
        right. rewrite Hs. reflexivity. }
    rewrite Hregr. rewrite (bind_step _ _ w1 w1 regr) by reflexivity.
    destruct (option_string_eq_dec _ _) as [Hk|Hk];
      [destruct (contact_eq_dec _ _) as [Hc|Hc]|]; try reflexivity.
    destruct Hdiff; contradiction.
Qed.

(** C7: once the POST has come back with a location header, a location
    other than the challenge resource's own raises UnexpectedUpdate and no
    updated resource is produced; with the same location the result is the
    challenge resource with the body decoded from the answer and its
    original location. *)
Theorem answer_challenge_checks_location
    (self : Network) (challr : ChallengeResource.t) (resp : string)
    (w w1 : World) (response : Response.t) (location : string) :
  _post (Some (ChallengeResource.uri challr))
        (_wrap_in_jws self (PChallengeResponse resp))
        (Some JSON_CONTENT_TYPE) None w = (Ret response, w1) ->
  Response.header response "location" = Some location ->
  (location <> ChallengeResource.uri challr ->
     answer_challenge self challr resp w
       = (Raise (UnexpectedUpdate (OffText location)), w1))
  /\ (location = ChallengeResource.uri challr ->
      forall jobj body,
        Response.json response = Some jobj ->
        Challenge_from_json jobj = Some body ->
        answer_challenge self challr resp w
          = (Ret {| ChallengeResource.body := body;
                    ChallengeResource.uri := ChallengeResource.uri challr |}, w1)).
Proof.
  intros Hpost Hloc. unfold answer_challenge.
  rewrite (bind_step _ _ _ _ _ Hpost). rewrite Hloc.
  rewrite (bind_step _ _ w1 w1 location) by reflexivity.
  split.
  - intros Hne. destruct (string_dec location (ChallengeResource.uri challr));
      [contradiction | reflexivity].
  - intros He jobj body Hj Hb.
    destruct (string_dec location (ChallengeResource.uri challr)); [|contradiction].
    rewrite Hj. rewrite (bind_step _ _ w1 w1 jobj) by reflexivity.
    rewrite Hb. reflexivity.
Qed.

(** C8, as the code has it: once the POST has passed the classifier, status
    200 is the only one accepted; any other status, a 2xx one included,
    raises [errors.NetworkError] (the TransportFault of the taxonomy)
    saying that a successful revocation must return OK. *)
Theorem revoke_requires_ok
    (self : Network) (certr : CertificateResource.t) (when : When)
    (w w1 : World) (response : Response.t) :
  _post (CertificateResource.uri certr)
        (_wrap_in_jws self (PRevocation when
           (map AuthorizationResource.uri (CertificateResource.authzrs certr))))
        (Some JSON_CONTENT_TYPE) None w = (Ret response, w1) ->
  (Response.status_code response = OK ->
     revoke self certr when w = (Ret tt, w1))
  /\ (Response.status_code response <> OK ->
      exists e, revoke self certr when w = (Raise e, w1)
                /\ e = NetworkError (NEMessage
                         "Successful revocation must return HTTP OK status")
                /\ fault_of e = Some TransportFault).
Proof.
  intros Hpost. unfold revoke. rewrite (bind_step _ _ _ _ _ Hpost).
  split.
  - intros ->. reflexivity.
  - intros Hne. destruct (Z.eqb_spec (Response.status_code response) OK);
      [contradiction|].
    eexists. repeat split.
Qed.

(** [check_cert] on an answer that has come back with a location header:
    the same location raises, another one returns the refreshed resource. *)
Lemma check_cert_location
    (certr : CertificateResource.t) (w w1 : World)
    (response : Response.t) (cert : X509) (location : string) :
  _get_cert (CertificateResource.uri certr) w = (Ret (response, cert), w1) ->
  Response.header response "location" = Some location ->
  check_cert certr w =
    if option_string_eq_dec (Some location) (CertificateResource.uri certr)
    then (Raise (UnexpectedUpdate (OffText (Response.text response))), w1)
    else (Ret (CertificateResource.update_body certr cert), w1).
Proof.
  intros Hget Hloc. unfold check_cert.
  rewrite (bind_step _ _ _ _ _ Hget). rewrite Hloc.
  rewrite (bind_step _ _ w1 w1 location) by reflexivity.
  destruct (option_string_eq_dec _ _); reflexivity.
Qed.

(** ** What a run adds to the trace *)

(** [emits P m]: whatever [m] does, the events it appends all satisfy [P]. *)
Definition emits {A} (P : Event -> Prop) (m : M A) : Prop :=
forall w out w', m w = (out, w') ->
  exists evs, trace w' = (trace w ++ evs)%list /\ Forall P evs.

Lemma emits_silent {A} (P : Event -> Prop) (m : M A) :
  (forall w out w', m w = (out, w') -> w' = w) -> emits P m.
Proof.
  intros Hm w out w' E. apply Hm in E. subst. exists [].
  split; [symmetry; apply app_nil_r | constructor].
Qed.

Lemma emits_ret {A} (P : Event -> Prop) (a : A) : emits P (ret a).
Proof. apply emits_silent. unfold ret. intros w out w' E. congruence. Qed.

Lemma emits_raise {A} (P : Event -> Prop) (e : Exn) : emits P (@raise A e).
Proof. apply emits_silent. unfold raise. intros w out w' E. congruence. Qed.

Lemma emits_lift {A} (P : Event -> Prop) (r : Result A) : emits P (lift r).
Proof. destruct r; [apply emits_ret | apply emits_raise]. Qed.

Lemma emits_bind {A B} (P : Event -> Prop) (m : M A) (k : A -> M B) :
  emits P m -> (forall a, emits P (k a)) -> emits P (bind m k).
Proof.
  intros Hm Hk w out w' E. unfold bind in E.
  destruct (m w) as [[a|e|] w1] eqn:Em.
  - destruct (Hm _ _ _ Em) as (evs1 & T1 & F1).
    destruct (Hk a _ _ _ E) as (evs2 & T2 & F2).
    exists (evs1 ++ evs2)%list. split.
    + rewrite T2, T1. symmetry. apply app_assoc.
    + apply Forall_app. split; assumption.
  - injection E as <- <-. eapply Hm; eassumption.
  - injection E as <- <-. eapply Hm; eassumption.
Qed.

Lemma emits_weaken {A} (P Q : Event -> Prop) (m : M A) :
  (forall e, P e -> Q e) -> emits P m -> emits Q m.
Proof.
  intros HPQ Hm w out w' E. destruct (Hm _ _ _ E) as (evs & T & F).
  exists evs. split; [exact T | eapply Forall_impl; eassumption].
Qed.

Lemma emits_except {A} (P : Event -> Prop) (m : M A) :
  emits P m -> emits P (except_RequestException m).
Proof.
  intros Hm w out w' E. unfold except_RequestException in E.
  destruct (m w) as [[a|e|] w1] eqn:Em.
  - injection E as <- <-. eapply Hm; eassumption.
  - destruct e; injection E as <- <-; eapply Hm; eassumption.
  - injection E as <- <-. eapply Hm; eassumption.
Qed.

Lemma emits_requests_call (P : Event -> Prop) (uri : option URI) (req : Request) :
  (forall t, P (Sent t req)) -> emits P (requests_call uri req).
Proof.
  intros HP w out w' E. unfold requests_call in E.
  destruct (sendable uri).
  - exists [Sent (clock w) req]. split; [|constructor; [apply HP | constructor]].
    destruct (script w) as [|[dt r|dt what] rest]; injection E as <- <-; reflexivity.
  - injection E as <- <-. exists []. split; [symmetry; apply app_nil_r | constructor].
Qed.

Lemma emits_now (P : Event -> Prop) : emits P datetime_now.
Proof. apply emits_silent. unfold datetime_now. intros w out w' E. congruence. Qed.

Lemma emits_sleep (P : Event -> Prop) (seconds : Z) :
  (forall t, P (Slept t seconds)) -> emits P (time_sleep seconds).
Proof.
  intros HP w out w' E. unfold time_sleep in E. injection E as <- <-.
  exists [Slept (clock w) seconds]. split; [reflexivity | constructor; [apply HP | constructor]].
Qed.

Lemma emits_assert (P : Event -> Prop) (cond : bool) : emits P (assert_ cond).
Proof.
  unfold assert_. destruct (debug && negb cond); [apply emits_raise | apply emits_ret].
Qed.

Lemma emits_retry_after (P : Event -> Prop) (response : Response.t) (mintime : Z) :
  emits P (_retry_after response mintime).
Proof.
  apply emits_silent. intros w out w' E. unfold _retry_after in E.
  destruct (Response.header response "Retry-After") as [s|];
    [destruct (py_int s)|];
    unfold bind, datetime_now, ret, raise in E;
    try destruct (datetime_plus_seconds _ _);
    injection E as _ <-; reflexivity.
Qed.

(** The events of the polling loop: a GET at one of the given URIs, or a
    sleep; never a POST. *)
Definition is_poll_of (uris : list (option URI)) (e : Event) : Prop :=
match e with
| Sent _ (GET u _) => In u uris
| Sent _ (POST _ _ _) => False
| Slept _ _ => True
end.

Definition entry_uri (x : Entry) : option URI := AuthorizationResource.uri (snd x).

Lemma emits_poll (self : Network) (authzr : AuthorizationResource.t) :
  emits (is_poll_of [AuthorizationResource.uri authzr]) (poll self authzr).
Proof.
  unfold poll, _get. repeat (apply emits_bind; [|intros]);
    try apply emits_lift; try apply emits_ret.
  apply emits_except. apply emits_requests_call. intros t. simpl. auto.
Qed.

(** ** One network call that came back *)

Lemma requests_call_ret_inv (uri : option URI) (req : Request)
    (w w' : World) (r : Response.t) :
  requests_call uri req w = (Ret r, w') ->
  exists u dt,
    uri = Some u /\
    script w = Responded dt r :: script w' /\
    trace w' = (trace w ++ [Sent (clock w) req])%list /\
    clock w' = clock w + Z.of_N dt.
Proof.
  unfold requests_call. destruct uri as [u|]; [|discriminate].
  destruct (sendable (Some u)); [|discriminate].
  destruct (script w) as [|[dt r0|dt what] rest] eqn:Es; try discriminate.
  intros E. injection E as <- <-. exists u, dt. simpl. auto.
Qed.

Lemma except_ret_inv {A} (m : M A) (w w' : World) (a : A) :
  except_RequestException m w = (Ret a, w') -> m w = (Ret a, w').
Proof.
  unfold except_RequestException.
  destruct (m w) as [[a0|e|] w1]; try discriminate; [auto|].
  destruct e; discriminate.
Qed.

Lemma get_ret_inv (uri : option URI) (content_type accept : option string)
    (w w' : World) (r : Response.t) :
  _get uri content_type accept w = (Ret r, w') ->
  requests_get uri accept w = (Ret r, w') /\ _check_response r content_type = Ok tt.
Proof.
  unfold _get. intros E.
  bind_inv E as r0 w1 E1.
  bind_inv E as [] w2 E2.
  apply lift_ret_inv in E2. destruct E2 as [E2 ->].
  unfold ret in E. injection E as <- <-.
  apply except_ret_inv in E1. auto.
Qed.

Lemma post_ret_inv (uri : option URI) (data : JWS) (content_type accept : option string)
    (w w' : World) (r : Response.t) :
  _post uri data content_type accept w = (Ret r, w') ->
  requests_post uri data accept w = (Ret r, w') /\ _check_response r content_type = Ok tt.
Proof.
  unfold _post. intros E.
  bind_inv E as r0 w1 E1.
  bind_inv E as [] w2 E2.
  apply lift_ret_inv in E2. destruct E2 as [E2 ->].
  unfold ret in E. injection E as <- <-.
  apply except_ret_inv in E1. auto.
Qed.

Lemma poll_ret_inv (self : Network) (authzr updated_authzr : AuthorizationResource.t)
    (response : Response.t) (w w' : World) :
  poll self authzr w = (Ret (updated_authzr, response), w') ->
  exists u dt,
    AuthorizationResource.uri authzr = Some u /\
    script w = Responded dt response :: script w' /\
    trace w' = (trace w ++ [Sent (clock w) (GET (Some u) None)])%list /\
    clock w' = clock w + Z.of_N dt /\
    _authzr_from_response self response
      (Authorization.identifier (AuthorizationResource.body authzr))
      (AuthorizationResource.uri authzr)
      (Some (AuthorizationResource.new_cert_uri authzr)) = Ok updated_authzr.
Proof.
  unfold poll. intros E.
  bind_inv E as r w1 E1.
  bind_inv E as ua w2 E2.
  apply lift_ret_inv in E2. destruct E2 as [E2 ->].
  unfold ret in E. injection E as <- <- <-.
  apply get_ret_inv in E1. destruct E1 as [E1 _].
  apply requests_call_ret_inv in E1. destruct E1 as (u & dt & Hu & Hs & Ht & Hc).
  exists u, dt. rewrite Hu in *. auto.
Qed.

(** ** One round of the loop *)

Definition valid (a : AuthorizationResource.t) : Prop :=
Authorization.status (AuthorizationResource.body a) = Some STATUS_VALID.

Lemma status_not_valid_false (a : AuthorizationResource.t) :
  status_not_valid a = false <-> valid a.
Proof.
  unfold status_not_valid, valid. destruct (option_string_eq_dec _ _); split;
    intros; congruence.
Qed.

Lemma status_not_valid_true (a : AuthorizationResource.t) :
  status_not_valid a = true <-> ~ valid a.
Proof.
  unfold status_not_valid, valid. destruct (option_string_eq_dec _ _); split;
    intros; congruence.
Qed.

(** The world in which the poll of a popped entry starts: the one at hand
    when the entry is due, otherwise the one after sleeping the seconds
    field of the time left. *)
Definition after_wait (when : Z) (w : World) : World :=
if when >? clock w
then {| clock := clock w + timedelta_seconds (when - clock w) * 1000000;
        script := script w;
        trace := (trace w ++ [Slept (clock w) (timedelta_seconds (when - clock w))])%list |}
else w.

Lemma loop_body_unfold (self : Network) (mintime : Z) (waiting rest : list Entry)
    (updated : Dict) (when : Z) (authzr : AuthorizationResource.t) (w : World) :
  heappop waiting = Some ((when, authzr), rest) ->
  loop_body self mintime waiting updated w =
    bind (poll self authzr)
      (fun '(updated_authzr, response) =>
         bind (assert_ (uri_eq_authzr (AuthorizationResource.uri updated_authzr) authzr))
           (fun _ =>
              if status_not_valid updated_authzr
              then bind (_retry_after response mintime)
                     (fun retry =>
                        match retry with
                        | Some t => ret (heappush rest (t, authzr),
                                         dict_set updated authzr updated_authzr)
                        | None => raise TypeError
                        end)
              else ret (rest, dict_set updated authzr updated_authzr)))
      (after_wait when w).
Proof.
  intros Hpop. unfold loop_body. rewrite Hpop. unfold after_wait.
  unfold bind at 1. unfold datetime_now at 1.
  unfold bind at 1. destruct (when >? clock w); reflexivity.
Qed.

Lemma retry_after_world (response : Response.t) (mintime : Z) (w : World) :
  exists out, _retry_after response mintime w = (out, w).
Proof.
  unfold _retry_after.
  destruct (Response.header response "Retry-After") as [s|];
    [destruct (py_int s)|];
    unfold bind, datetime_now, ret, raise;
    try destruct (datetime_plus_seconds _ _);
    eexists; reflexivity.
Qed.

(** A round that came back took one entry out, polled it from the world
    [after_wait] gives, recorded the snapshot under the entry's own
    resource, and either left the entry out (snapshot valid) or pushed it
    back with a new due time. *)
Lemma loop_body_ret_inv (self : Network) (mintime : Z) (waiting waiting' : list Entry)
    (updated updated' : Dict) (w w' : World) :
  loop_body self mintime waiting updated w = (Ret (waiting', updated'), w') ->
  exists when authzr rest updated_authzr response,
    heappop waiting = Some ((when, authzr), rest) /\
    poll self authzr (after_wait when w) = (Ret (updated_authzr, response), w') /\
    updated' = dict_set updated authzr updated_authzr /\
    ((valid updated_authzr /\ waiting' = rest)
     \/ (~ valid updated_authzr /\
         exists t, _retry_after response mintime w' = (Ret (Some t), w') /\
                   waiting' = heappush rest (t, authzr))).
Proof.
  intros E. destruct (heappop waiting) as [[[when authzr] rest]|] eqn:Hpop.
  2:{ unfold loop_body in E. rewrite Hpop in E. discriminate. }
  rewrite (loop_body_unfold _ _ _ _ _ _ _ _ Hpop) in E.
  bind_inv E as [ua response] w1 Epoll.
  bind_inv E as [] w2 Ea.
  apply assert_ret_inv in Ea. destruct Ea as [-> _].
  exists when, authzr, rest, ua, response.
  destruct (status_not_valid ua) eqn:Hs.
  - bind_inv E as retry w3 Er.
    destruct (retry_after_world response mintime w1) as (out & Eout).
    rewrite Eout in Er. injection Er as -> <-.
    destruct retry as [t|]; [|discriminate].
    unfold ret in E. injection E as <- <- <-.
    repeat split; auto. right. split; [apply status_not_valid_true; exact Hs|].
    exists t. auto.
  - unfold ret in E. injection E as <- <- <-.
    repeat split; auto. left. split; [apply status_not_valid_false; exact Hs | reflexivity].
Qed.

(** ** The queue only ever holds what was put in *)

Lemma heappop_in (h rest : list Entry) (x : Entry) :
  heappop h = Some (x, rest) -> In x h /\ (forall y, In y rest -> In y h).
Proof.
  intros E. apply heappop_perm in E. split.
  - eapply Permutation_in; [apply Permutation_sym; exact E | left; reflexivity].
  - intros y Hy. eapply Permutation_in; [apply Permutation_sym; exact E | right; exact Hy].
Qed.

Lemma heappush_in (h : list Entry) (x y : Entry) :
  In y (heappush h x) -> y = x \/ In y h.
Proof.
  intros Hy. apply (Permutation_in _ (heappush_perm h x)) in Hy.
  destruct Hy as [<-|Hy]; auto.
Qed.

Lemma in_entry_uri (x : Entry) (h : list Entry) :
  In x h -> In (entry_uri x) (map entry_uri h).
Proof. apply in_map. Qed.

(** After a round, every queued URI was queued before. *)
Lemma loop_body_uris (self : Network) (mintime : Z) (waiting waiting' : list Entry)
    (updated updated' : Dict) (w w' : World) :
  loop_body self mintime waiting updated w = (Ret (waiting', updated'), w') ->
  forall u, In u (map entry_uri waiting') -> In u (map entry_uri waiting).
Proof.
  intros E u Hu.
  destruct (loop_body_ret_inv _ _ _ _ _ _ _ _ E)
    as (when & a & rest & ua & resp & Hpop & _ & _ & Hw).
  destruct (heappop_in _ _ _ Hpop) as [Hin Hrest].
  apply in_map_iff in Hu. destruct Hu as (y & <- & Hy).
  destruct Hw as [[_ ->] | [_ (t & _ & ->)]].
  - apply in_entry_uri. auto.
  - apply heappush_in in Hy. destruct Hy as [-> | Hy].
    + change (entry_uri (t, a)) with (entry_uri (when, a)). apply in_entry_uri. exact Hin.
    + apply in_entry_uri. auto.
Qed.

Lemma is_poll_of_incl (us vs : list (option URI)) (e : Event) :
  (forall u, In u us -> In u vs) -> is_poll_of us e -> is_poll_of vs e.
Proof. destruct e as [t [u a|u d a]|t s]; simpl; auto. Qed.

Lemma emits_loop_body (self : Network) (mintime : Z) (waiting : list Entry)
    (updated : Dict) :
  emits (is_poll_of (map entry_uri waiting)) (loop_body self mintime waiting updated).
Proof.
  unfold loop_body.
  destruct (heappop waiting) as [[[when a] rest]|] eqn:Hpop; [|apply emits_raise].
  destruct (heappop_in _ _ _ Hpop) as [Hin _].
  apply emits_bind; [apply emits_now | intros now].
  apply emits_bind.
  { destruct (when >? now); [apply emits_sleep; intros; exact I | apply emits_ret]. }
  intros _. apply emits_bind.
  { eapply emits_weaken; [|apply emits_poll].
    intros e. apply is_poll_of_incl. intros u [<-|[]].
    apply (in_entry_uri _ _ Hin). }
  intros [ua resp]. apply emits_bind; [apply emits_assert | intros _].
  destruct (status_not_valid ua); [|apply emits_ret].
  apply emits_bind; [apply emits_retry_after | intros [t|]];
    [apply emits_ret | apply emits_raise].
Qed.

(** The whole loop sends nothing but GETs, each at the URI of a resource
    that was in the queue when the loop started. *)
Lemma emits_poll_loop (self : Network) (mintime : Z) (fuel : nat) :
  forall (waiting : list Entry) (updated : Dict),
  emits (is_poll_of (map entry_uri waiting)) (poll_loop fuel self mintime waiting updated).
Proof.
  induction fuel as [|fuel IH]; intros waiting updated.
  - destruct waiting; simpl; [apply emits_ret|].
    apply emits_silent. intros w out w' E. congruence.
  - destruct waiting as [|x waiting]; [apply emits_ret|].
    cbn [poll_loop]. intros w out w' E. unfold bind in E.
    destruct (loop_body self mintime (x :: waiting) updated w) as [[[wa' u']|e|] w1] eqn:Eb.
    + destruct (emits_loop_body _ _ _ _ _ _ _ Eb) as (evs1 & T1 & F1).
      destruct (IH _ _ _ _ _ E) as (evs2 & T2 & F2).
      exists (evs1 ++ evs2)%list. split.
      * rewrite T2, T1. symmetry. apply app_assoc.
      * apply Forall_app. split; [exact F1|].
        eapply Forall_impl; [|exact F2]. intros e.
        apply is_poll_of_incl. eapply loop_body_uris. exact Eb.
    + injection E as <- <-. eapply emits_loop_body; eassumption.
    + injection E as <- <-. eapply emits_loop_body; eassumption.
Qed.

(** ** The bound on rounds is never what stops the loop *)

Lemma loop_body_consumes (self : Network) (mintime : Z) (waiting waiting' : list Entry)
    (updated updated' : Dict) (w w' : World) :
  loop_body self mintime waiting updated w = (Ret (waiting', updated'), w') ->
  (List.length (script w') < List.length (script w))%nat.
Proof.
  intros E.
  destruct (loop_body_ret_inv _ _ _ _ _ _ _ _ E)
    as (when & a & rest & ua & resp & _ & Hpoll & _).
  apply poll_ret_inv in Hpoll. destruct Hpoll as (u & dt & _ & Hs & _).
  assert (script (after_wait when w) = script w) as Hw
    by (unfold after_wait; destruct (when >? clock w); reflexivity).
  rewrite Hw in Hs. rewrite Hs. simpl. lia.
Qed.

Lemma poll_loop_fuel (self : Network) (mintime : Z) (n : nat) :
  forall (m : nat) (waiting : list Entry) (updated : Dict) (w : World),
  (List.length (script w) < n)%nat ->
  (List.length (script w) < m)%nat ->
  poll_loop n self mintime waiting updated w = poll_loop m self mintime waiting updated w.
Proof.
  induction n as [|n IH]; intros m waiting updated w Hn Hm; [lia|].
  destruct m as [|m]; [lia|].
  destruct waiting as [|x waiting]; [reflexivity|].
  cbn [poll_loop]. unfold bind.
  destruct (loop_body self mintime (x :: waiting) updated w) as [[[wa' u']|e|] w1] eqn:Eb;
    try reflexivity.
  apply loop_body_consumes in Eb. apply IH; lia.
Qed.

(** ** The dictionary of snapshots *)

Lemma dict_get_set_same (d : Dict) (k v : AuthorizationResource.t) :
  dict_get (dict_set d k v) k = Some v.
Proof.
  induction d as [|[k' v'] d IH]; simpl.
  - destruct (AuthorizationResource_eq_dec k k); congruence.
  - destruct (AuthorizationResource_eq_dec k k') as [E|E]; simpl.
    + destruct (AuthorizationResource_eq_dec k k'); congruence.
    + destruct (AuthorizationResource_eq_dec k k'); congruence.
Qed.

Lemma dict_get_set_other (d : Dict) (k k' v : AuthorizationResource.t) :
  k' <> k -> dict_get (dict_set d k v) k' = dict_get d k'.
Proof.
  intros Hne. induction d as [|[k0 v0] d IH]; simpl.
  - destruct (AuthorizationResource_eq_dec k' k); congruence.
  - destruct (AuthorizationResource_eq_dec k k0) as [E|E]; simpl.
    + subst k0. destruct (AuthorizationResource_eq_dec k' k); congruence.
    + destruct (AuthorizationResource_eq_dec k' k0); congruence.
Qed.

Lemma snapshots_ok (updated : Dict) (authzrs final : list AuthorizationResource.t) :
  snapshots updated authzrs = Ok final ->
  Forall2 (fun a v => dict_get updated a = Some v) authzrs final.
Proof.
  revert final. induction authzrs as [|a l IH]; simpl; intros final E.
  - injection E as <-. constructor.
  - apply rbind_ok_inv in E. destruct E as (v & Ev & E).
    apply rbind_ok_inv in E. destruct E as (vs & Evs & E).
    injection E as <-. apply of_option_ok in Ev. constructor; auto.
Qed.

(** ** Every authorization is valid when the loop ends *)

(** The latest snapshot recorded for [a] is valid. *)
Definition settled (updated : Dict) (a : AuthorizationResource.t) : Prop :=
exists v, dict_get updated a = Some v /\ valid v.

Lemma heappush_has (h : list Entry) (x y : Entry) :
  y = x \/ In y h -> In y (heappush h x).
Proof.
  intros Hy. apply (Permutation_in _ (Permutation_sym (heappush_perm h x))).
  destruct Hy as [->|Hy]; [left; reflexivity | right; exact Hy].
Qed.

Lemma heappop_cases (h rest : list Entry) (x y : Entry) :
  heappop h = Some (x, rest) -> In y h -> y = x \/ In y rest.
Proof.
  intros E Hy. apply heappop_perm in E.
  apply (Permutation_in _ E) in Hy. destruct Hy as [<-|Hy]; auto.
Qed.

Lemma loop_body_keeps_settling (self : Network) (mintime : Z)
    (waiting waiting' : list Entry) (updated updated' : Dict) (w w' : World)
    (b : AuthorizationResource.t) :
  loop_body self mintime waiting updated w = (Ret (waiting', updated'), w') ->
  In b (map snd waiting) \/ settled updated b ->
  In b (map snd waiting') \/ settled updated' b.
Proof.
  intros E Hb.
  destruct (loop_body_ret_inv _ _ _ _ _ _ _ _ E)
    as (when & a & rest & ua & resp & Hpop & _ & -> & Hw).
  assert (b = a -> In b (map snd waiting') \/ settled (dict_set updated a ua) b) as Hsame.
  { intros ->. destruct Hw as [[Hv _] | [_ (t & _ & ->)]].
    - right. exists ua. split; [apply dict_get_set_same | exact Hv].
    - left. apply in_map_iff. exists (t, a). split; [reflexivity|].
      apply heappush_has. left. reflexivity. }
  destruct (AuthorizationResource_eq_dec b a) as [Eb|Nb]; [auto|].
  destruct Hb as [Hb | (v & Hg & Hv)].
  - left. apply in_map_iff in Hb. destruct Hb as ([t0 b0] & Hb0 & Hin).
    simpl in Hb0. subst b0.
    destruct (heappop_cases _ _ _ _ Hpop Hin) as [Ex | Hr].
    + injection Ex as _ Ex. contradiction.
    + apply in_map_iff. exists (t0, b). split; [reflexivity|].
      destruct Hw as [[_ ->] | [_ (t & _ & ->)]]; [exact Hr|].
      apply heappush_has. right. exact Hr.
  - right. exists v. split; [|exact Hv].
    rewrite dict_get_set_other by exact Nb. exact Hg.
Qed.

Lemma poll_loop_settles (self : Network) (mintime : Z)
    (authzrs : list AuthorizationResource.t) (fuel : nat) :
  forall (waiting : list Entry) (updated updated' : Dict) (w w' : World),
  (forall a, In a authzrs -> In a (map snd waiting) \/ settled updated a) ->
  poll_loop fuel self mintime waiting updated w = (Ret updated', w') ->
  forall a, In a authzrs -> settled updated' a.
Proof.
  induction fuel as [|fuel IH]; intros waiting updated updated' w w' Hinv E a Ha.
  - destruct waiting; simpl in E; [|discriminate].
    unfold ret in E. injection E as <- <-.
    destruct (Hinv a Ha) as [[]|Hs]; exact Hs.
  - destruct waiting as [|x waiting].
    + simpl in E. unfold ret in E. injection E as <- <-.
      destruct (Hinv a Ha) as [[]|Hs]; exact Hs.
    + cbn [poll_loop] in E.
      bind_inv E as [wa' u'] w1 Eb.
      eapply IH; [|exact E|exact Ha].
      intros b Hb. eapply loop_body_keeps_settling; [exact Eb | auto].
Qed.

Lemma enqueue_all_spec (authzrs : list AuthorizationResource.t) (w : World) :
  enqueue_all authzrs w = (Ret (map (fun a => (clock w, a)) authzrs), w).
Proof.
  induction authzrs as [|a l IH]; simpl; [reflexivity|].
  unfold bind at 1. unfold datetime_now at 1.
  unfold bind at 1. rewrite IH. reflexivity.
Qed.

(** ** Issuance *)

(** The requests POSTed among some events, in order. *)
Fixpoint posts (evs : list Event) : list Request :=
match evs with
| [] => []
| Sent _ (POST u d a) :: rest => POST u d a :: posts rest
| _ :: rest => posts rest
end.

Lemma posts_app (xs ys : list Event) : posts (xs ++ ys) = (posts xs ++ posts ys)%list.
Proof.
  induction xs as [|[t [u a|u d a]|t s] xs IH]; simpl; try exact IH.
  - reflexivity.
  - rewrite IH. reflexivity.
Qed.

Lemma polls_have_no_posts (uris : list (option URI)) (evs : list Event) :
  Forall (is_poll_of uris) evs -> posts evs = [].
Proof.
  induction 1 as [|[t [u a|u d a]|t s] evs He _ IH]; simpl; auto. destruct He.
Qed.

Lemma request_issuance_ret_inv (self : Network) (csr : CSR)
    (authzrs : list AuthorizationResource.t) (w w' : World)
    (certr : CertificateResource.t) :
  request_issuance self csr authzrs w = (Ret certr, w') ->
  exists first rest,
    authzrs = first :: rest /\
    CertificateResource.authzrs certr = authzrs /\
    trace w' = (trace w ++
      [Sent (clock w)
         (POST (Some (AuthorizationResource.new_cert_uri first))
               (_wrap_in_jws self
                  (PCertificateRequest csr (map AuthorizationResource.uri authzrs)))
               (Some DER_CONTENT_TYPE))])%list.
Proof.
  unfold request_issuance. intros E.
  bind_inv E as first w1 E1.
  apply lift_ret_inv in E1. destruct E1 as [E1 ->]. apply of_option_ok in E1.
  destruct authzrs as [|a rest]; [discriminate|]. simpl in E1. injection E1 as ->.
  bind_inv E as response w2 E2.
  bind_inv E as body w3 E3.
  apply lift_ret_inv in E3. destruct E3 as [_ ->].
  bind_inv E as chain w4 E4.
  apply lift_ret_inv in E4. destruct E4 as [_ ->].
  unfold ret in E. injection E as <- <-.
  apply post_ret_inv in E2. destruct E2 as [E2 _]. unfold requests_post in E2.
  apply requests_call_ret_inv in E2. destruct E2 as (u & dt & _ & _ & Ht & _).
  exists first, rest. repeat split; auto.
Qed.

Lemma settled_snapshots_valid (updated : Dict) (authzrs final : list AuthorizationResource.t) :
  (forall a, In a authzrs -> settled updated a) ->
  Forall2 (fun a v => dict_get updated a = Some v) authzrs final ->
  Forall valid final.
Proof.
  intros Hs F. induction F as [|a v l vs Hav F IH]; constructor.
  - destruct (Hs a (or_introl eq_refl)) as (v' & Hg & Hv). congruence.
  - apply IH. intros b Hb. apply Hs. right. exact Hb.
Qed.

(** When [poll_and_request_issuance] returns, the snapshots handed back are
    all valid, one request was POSTed during the run, and the certificate
    resource carries the list that was passed in. *)
Lemma issuance_returned
    (self : Network) (csr : CSR) (authzrs final : list AuthorizationResource.t)
    (mintime : Z) (w w' : World) (certr : CertificateResource.t) :
  poll_and_request_issuance self csr authzrs mintime w = (Ret (certr, final), w') ->
  exists first rest evs,
    authzrs = first :: rest /\
    trace w' = (trace w ++ evs)%list /\
    posts evs =
      [POST (Some (AuthorizationResource.new_cert_uri first))
            (_wrap_in_jws self
               (PCertificateRequest csr (map AuthorizationResource.uri authzrs)))
            (Some DER_CONTENT_TYPE)] /\
    CertificateResource.authzrs certr = authzrs /\
    Forall valid final /\
    List.length final = List.length authzrs.
Proof.
  intros E. unfold poll_and_request_issuance in E.
  bind_inv E as waiting w0 E0.
  rewrite enqueue_all_spec in E0. injection E0 as <- <-.
  bind_inv E as updated w1 Eloop.
  bind_inv E as certr0 w2 Ereq.
  bind_inv E as final0 w3 Esnap.
  apply lift_ret_inv in Esnap. destruct Esnap as [Esnap ->].
  unfold ret in E. injection E as <- <- <-.
  destruct (emits_poll_loop _ _ _ _ _ _ _ _ Eloop) as (evs1 & T1 & F1).
  destruct (request_issuance_ret_inv _ _ _ _ _ _ Ereq) as (first & rest & Hl & Hc & T2).
  apply snapshots_ok in Esnap.
  exists first, rest, (evs1 ++ [Sent (clock w1)
       (POST (Some (AuthorizationResource.new_cert_uri first))
             (_wrap_in_jws self
                (PCertificateRequest csr (map AuthorizationResource.uri authzrs)))
             (Some DER_CONTENT_TYPE))])%list.
  repeat split.
  - exact Hl.
  - rewrite T2, T1. symmetry. apply app_assoc.
  - rewrite posts_app, (polls_have_no_posts _ _ F1). reflexivity.
  - exact Hc.
  - eapply settled_snapshots_valid; [|exact Esnap].
    eapply poll_loop_settles; [|exact Eloop].
    intros a Ha. left. rewrite map_map. simpl. rewrite map_id. exact Ha.
  - symmetry. eapply Forall2_length. exact Esnap.
Qed.

(** A POST to a URL puts exactly that request on the trace, whatever comes
    back. *)
Lemma post_trace (u : URI) (data : JWS) (content_type accept : option string)
    (w w' : World) (out : Outcome Response.t) :
  valid_url u = true ->
  _post (Some u) data content_type accept w = (out, w') ->
  trace w' = (trace w ++ [Sent (clock w) (POST (Some u) data accept)])%list.
Proof.
  intros Hu.
  unfold _post, bind, except_RequestException, requests_post, requests_call.
  cbn [sendable]. rewrite Hu.
  destruct (script w) as [|[dt r|dt what] rest].
  - intros E. injection E as <- <-. reflexivity.
  - destruct (_check_response r content_type) as [[]|e]; simpl;
      intros E; injection E as <- <-; reflexivity.
  - intros E. injection E as <- <-. reflexivity.
Qed.

(** A POST to a string that is no URL sends nothing. *)
Lemma post_refused (u : URI) (data : JWS) (content_type accept : option string)
    (w : World) :
  valid_url u = false ->
  _post (Some u) data content_type accept w
  = (Raise (NetworkError (NERequest "Invalid URL")), w).
Proof.
  intros Hu.
  unfold _post, bind, except_RequestException, requests_post, requests_call.
  cbn [sendable]. rewrite Hu. reflexivity.
Qed.

(** A POST that came back was sent, and its answer is the next reply. *)
Lemma post_ret_sent (uri : option URI) (data : JWS) (content_type accept : option string)
    (w w' : World) (response : Response.t) :
  _post uri data content_type accept w = (Ret response, w') ->
  trace w' = (trace w ++ [Sent (clock w) (POST uri data accept)])%list
  /\ exists dt, script w = Responded dt response :: script w'.
Proof.
  intros E. apply post_ret_inv in E. destruct E as [E _]. unfold requests_post in E.
  apply requests_call_ret_inv in E. destruct E as (u & dt & _ & Hs & Ht & _).
  split; [exact Ht | exists dt; exact Hs].
Qed.

Lemma request_issuance_trace (self : Network) (csr : CSR)
    (first : AuthorizationResource.t) (rest : list AuthorizationResource.t)
    (w w' : World) (out : Outcome CertificateResource.t) :
  valid_url (AuthorizationResource.new_cert_uri first) = true ->
  request_issuance self csr (first :: rest) w = (out, w') ->
  trace w' = (trace w ++
    [Sent (clock w)
       (POST (Some (AuthorizationResource.new_cert_uri first))
             (_wrap_in_jws self
                (PCertificateRequest csr
                   (map AuthorizationResource.uri (first :: rest))))
             (Some DER_CONTENT_TYPE))])%list.
Proof.
  intros Hu. unfold request_issuance. cbn [hd_error of_option].
  rewrite (bind_step _ _ w w first) by reflexivity.
  unfold bind at 1.
  destruct (_post _ _ _ _ w) as [[response|e|] w1] eqn:Ep;
    apply (post_trace _ _ _ _ _ _ _ Hu) in Ep.
  - unfold bind.
    destruct (load_cert_der_string (Response.text response)); simpl;
      [destruct (Response.link response "up"); simpl|];
      intros E; injection E as <- <-; exact Ep.
  - intros E. injection E as <- <-. exact Ep.
  - intros E. injection E as <- <-. exact Ep.
Qed.

Lemma request_issuance_refused (self : Network) (csr : CSR)
    (first : AuthorizationResource.t) (rest : list AuthorizationResource.t)
    (w : World) :
  valid_url (AuthorizationResource.new_cert_uri first) = false ->
  request_issuance self csr (first :: rest) w
  = (Raise (NetworkError (NERequest "Invalid URL")), w).
Proof.
  intros Hu. unfold request_issuance. cbn [hd_error of_option].
  rewrite (bind_step _ _ w w first) by reflexivity.
  apply bind_raise. apply post_refused. exact Hu.
Qed.

(** Once the loop has ended, the certificate request is the one thing
    still sent, whether or not an answer comes back; where the first
    authorization's [new_cert_uri] is no URL, nothing more is sent. *)
Lemma issuance_after_loop
    (self : Network) (csr : CSR) (first : AuthorizationResource.t)
    (rest : list AuthorizationResource.t) (mintime : Z) (w w1 : World)
    (updated : Dict) :
  poll_loop (S (List.length (script w))) self mintime
            (map (fun a => (clock w, a)) (first :: rest))
            (dict_of (first :: rest)) w = (Ret updated, w1) ->
  exists out w' polls,
    poll_and_request_issuance self csr (first :: rest) mintime w = (out, w') /\
    posts polls = [] /\
    if valid_url (AuthorizationResource.new_cert_uri first)
    then trace w' = (trace w ++ polls ++
           [Sent (clock w1)
              (POST (Some (AuthorizationResource.new_cert_uri first))
                    (_wrap_in_jws self
                       (PCertificateRequest csr
                          (map AuthorizationResource.uri (first :: rest))))
                    (Some DER_CONTENT_TYPE))])%list
    else trace w' = (trace w ++ polls)%list.
Proof.
  intros Eloop.
  destruct (emits_poll_loop _ _ _ _ _ _ _ _ Eloop) as (polls & T1 & F1).
  pose proof (polls_have_no_posts _ _ F1) as P1.
  unfold poll_and_request_issuance.
  rewrite (bind_step _ _ _ _ _ (enqueue_all_spec (first :: rest) w)).
  rewrite (bind_step _ _ _ _ _ Eloop).
  destruct (valid_url (AuthorizationResource.new_cert_uri first)) eqn:Hu.
  - unfold bind at 1.
    destruct (request_issuance self csr (first :: rest) w1) as [[certr|e|] w2] eqn:Er;
      apply (request_issuance_trace _ _ _ _ _ _ _ Hu) in Er.
    + unfold bind. destruct (snapshots updated (first :: rest)) as [final|e]; simpl;
        eexists _, w2, polls; (split; [reflexivity|]); (split; [exact P1|]);
        rewrite Er, T1; symmetry; apply app_assoc.
    + eexists _, w2, polls. split; [reflexivity|]. split; [exact P1|].
      rewrite Er, T1. symmetry. apply app_assoc.
    + eexists _, w2, polls. split; [reflexivity|]. split; [exact P1|].
      rewrite Er, T1. symmetry. apply app_assoc.
  - rewrite (bind_raise _ _ _ _ _ (request_issuance_refused _ _ _ _ _ Hu)).
    eexists _, w1, polls. split; [reflexivity|]. split; [exact P1 | exact T1].
Qed.

(** The event is a GET at [u]. *)
Definition polls_uri (u : option URI) (e : Event) : Prop :=
exists t accept, e = Sent t (GET u accept).

Lemma not_polled_outside (uris : list (option URI)) (u : option URI) (e : Event) :
  ~ In u uris -> is_poll_of uris e -> ~ polls_uri u e.
Proof.
  intros Hu He (t & accept & ->). simpl in He. contradiction.
Qed.

(** C9, as the code has it: a round of the loop puts the polled entry back
    exactly when its fresh status is not "valid", whatever else that status
    is; once the status is "valid" the entry stays out of the queue, and
    (the queued resources having distinct URIs) the loop never polls its
    URI again. *)
Theorem requeued_unless_valid
    (self : Network) (mintime : Z) (waiting waiting' : list Entry)
    (updated updated' : Dict) (w w' : World) :
  loop_body self mintime waiting updated w = (Ret (waiting', updated'), w') ->
  exists when authzr rest updated_authzr response,
    heappop waiting = Some ((when, authzr), rest) /\
    poll self authzr (after_wait when w) = (Ret (updated_authzr, response), w') /\
    dict_get updated' authzr = Some updated_authzr /\
    ((valid updated_authzr /\ waiting' = rest /\
      (NoDup (map entry_uri waiting) ->
       forall fuel upd w1 out w2,
         poll_loop fuel self mintime waiting' upd w1 = (out, w2) ->
         exists evs, trace w2 = (trace w1 ++ evs)%list /\
                     Forall (fun e => ~ polls_uri (AuthorizationResource.uri authzr) e) evs))
     \/ (~ valid updated_authzr /\
         exists t, waiting' = heappush rest (t, authzr) /\ In (t, authzr) waiting')).
Proof.
  intros E.
  destruct (loop_body_ret_inv _ _ _ _ _ _ _ _ E)
    as (when & a & rest & ua & resp & Hpop & Hpoll & -> & Hw).
  exists when, a, rest, ua, resp.
  split; [exact Hpop|]. split; [exact Hpoll|]. split; [apply dict_get_set_same|].
  destruct Hw as [[Hv ->] | [Hv (t & _ & ->)]].
  - left. split; [exact Hv|]. split; [reflexivity|].
    intros Hnd fuel upd w1 out w2 Eloop.
    destruct (emits_poll_loop _ _ _ _ _ _ _ _ Eloop) as (evs & T & F).
    exists evs. split; [exact T|].
    eapply Forall_impl; [|exact F]. intros e. apply not_polled_outside.
    apply heappop_perm in Hpop.
    apply (Permutation_map entry_uri) in Hpop.
    apply (Permutation_NoDup Hpop) in Hnd. simpl in Hnd.
    inversion Hnd; assumption.
  - right. split; [exact Hv|]. exists t. split; [reflexivity|].
    apply heappush_has. left. reflexivity.
Qed.

(** The event is no GET, or a GET at one of the given URIs. *)
Definition polls_only (uris : list (option URI)) (e : Event) : Prop :=
match e with
| Sent _ (GET u _) => In u uris
| _ => True
end.

(** Every poll of [poll_and_request_issuance], however the run ends, goes
    to the URI of one of the resources passed in. *)
Lemma polls_go_to_enqueued_uris (self : Network) (csr : CSR)
    (authzrs : list AuthorizationResource.t) (mintime : Z) :
  emits (polls_only (map AuthorizationResource.uri authzrs))
        (poll_and_request_issuance self csr authzrs mintime).
Proof.
  intros w out w' E. unfold poll_and_request_issuance in E.
  revert E. generalize (S (List.length (script w))). intros fuel. revert w out w'.
  change (emits (polls_only (map AuthorizationResource.uri authzrs))
    (bind (enqueue_all authzrs) (fun waiting =>
     bind (poll_loop fuel self mintime waiting (dict_of authzrs)) (fun updated =>
     bind (request_issuance self csr authzrs) (fun certr =>
     bind (lift (snapshots updated authzrs)) (fun final => ret (certr, final))))))).
  intros w out w' E. unfold bind at 1 in E. rewrite enqueue_all_spec in E.
  revert w out w' E.
  change (emits (polls_only (map AuthorizationResource.uri authzrs))
    (fun w => bind (poll_loop fuel self mintime (map (fun a => (clock w, a)) authzrs)
                      (dict_of authzrs)) (fun updated =>
     bind (request_issuance self csr authzrs) (fun certr =>
     bind (lift (snapshots updated authzrs)) (fun final => ret (certr, final)))) w)).
  intros w out w' E. revert E. generalize (clock w) at 1. intros t0. revert w out w'.
  apply emits_bind.
  - eapply emits_weaken; [|apply emits_poll_loop].
    intros e He. rewrite map_map in He.
    destruct e as [t [u a|u d a]|t s]; simpl in *; auto.
  - intros updated. apply emits_bind.
    + unfold request_issuance, _post.
      repeat (apply emits_bind; [|intros]); try apply emits_lift; try apply emits_ret.
      apply emits_except. apply emits_requests_call. intros t. exact I.
    + intros certr. apply emits_bind; [apply emits_lift | intros; apply emits_ret].
Qed.

(** The assertion of the loop, [assert updated_authzr.uri == authzr], sets
    a URI against a resource.  Where assertions are on and no URI equals a
    resource, no round of the loop comes back, and neither does
    [poll_and_request_issuance]. *)
Lemma loop_assertion_stops_every_round
    (self : Network) (mintime : Z) (waiting : list Entry) (updated : Dict) (w : World) :
  debug = true ->
  (forall u a, uri_eq_authzr u a = false) ->
  forall x w', loop_body self mintime waiting updated w <> (Ret x, w').
Proof.
  intros Hd Hne x w' E.
  destruct (heappop waiting) as [[[when a] rest]|] eqn:Hpop.
  2:{ unfold loop_body in E. rewrite Hpop in E. discriminate. }
  rewrite (loop_body_unfold _ _ _ _ _ _ _ _ Hpop) in E.
  bind_inv E as [ua response] w1 _.
  apply bind_ret_inv in E. destruct E as ([] & w2 & Ea & _).
  apply assert_ret_inv in Ea. destruct Ea as [_ [Ea|Ea]]; [congruence|].
  rewrite Hne in Ea. discriminate.
Qed.

(** ** A run stops short only for want of an answer *)

(** [waits m]: when [m] is [Blocked], no scripted reply is left. *)
Definition waits {A} (m : M A) : Prop :=
forall w w', m w = (Blocked, w') -> script w' = [].

Lemma waits_never {A} (m : M A) :
  (forall w w', m w <> (Blocked, w')) -> waits m.
Proof. intros Hm w w' E. destruct (Hm _ _ E). Qed.

Lemma waits_ret {A} (a : A) : waits (ret a).
Proof. apply waits_never. unfold ret. intros w w' E. discriminate. Qed.

Lemma waits_raise {A} (e : Exn) : waits (@raise A e).
Proof. apply waits_never. unfold raise. intros w w' E. discriminate. Qed.

Lemma waits_lift {A} (r : Result A) : waits (lift r).
Proof. destruct r; [apply waits_ret | apply waits_raise]. Qed.

Lemma waits_bind {A B} (m : M A) (k : A -> M B) :
  waits m -> (forall a, waits (k a)) -> waits (bind m k).
Proof.
  intros Hm Hk w w' E. unfold bind in E.
  destruct (m w) as [[a|e|] w1] eqn:Em.
  - eapply Hk. exact E.
  - discriminate.
  - injection E as <-. eapply Hm. exact Em.
Qed.

Lemma waits_get (uri : option URI) (content_type accept : option string) :
  waits (_get uri content_type accept).
Proof.
  unfold _get. apply waits_bind.
  - intros w w' E. unfold except_RequestException, requests_get, requests_call in E.
    destruct (sendable uri); [|discriminate].
    destruct (script w) as [|[dt r|dt what] rest]; try discriminate.
    injection E as <-. reflexivity.
  - intros r. apply waits_bind; [apply waits_lift | intros; apply waits_ret].
Qed.

Lemma waits_loop_body (self : Network) (mintime : Z) (waiting : list Entry)
    (updated : Dict) :
  waits (loop_body self mintime waiting updated).
Proof.
  unfold loop_body.
  destruct (heappop waiting) as [[[when a] rest]|]; [|apply waits_raise].
  apply waits_bind.
  { apply waits_never. unfold datetime_now. intros w w' E. discriminate. }
  intros now. apply waits_bind.
  { destruct (when >? now); [|apply waits_ret].
    apply waits_never. unfold time_sleep. intros w w' E. discriminate. }
  intros _. apply waits_bind.
  { unfold poll. apply waits_bind; [apply waits_get | intros r].
    apply waits_bind; [apply waits_lift | intros; apply waits_ret]. }
  intros [ua resp]. apply waits_bind.
  { unfold assert_. destruct (debug && negb _); [apply waits_raise | apply waits_ret]. }
  intros _. destruct (status_not_valid ua); [|apply waits_ret].
  apply waits_bind.
  - intros w w' E. destruct (retry_after_world resp mintime w) as (out & Eo).
    rewrite Eo in E. injection E as -> <-.
    unfold _retry_after, bind, datetime_now, ret, raise in Eo.
    destruct (Response.header resp "Retry-After") as [s|];
      [destruct (py_int s)|];
      try destruct (datetime_plus_seconds _ _); discriminate.
  - intros [t|]; [apply waits_ret | apply waits_raise].
Qed.

(** With more rounds allowed than there are replies, the loop is [Blocked]
    only when a request is out and the script has run dry. *)
Lemma poll_loop_waits (self : Network) (mintime : Z) (fuel : nat) :
  forall (waiting : list Entry) (updated : Dict) (w w' : World),
  (List.length (script w) < fuel)%nat ->
  poll_loop fuel self mintime waiting updated w = (Blocked, w') ->
  script w' = [].
Proof.
  induction fuel as [|fuel IH]; intros waiting updated w w' Hf E; [lia|].
  destruct waiting as [|x waiting]; [discriminate|].
  cbn [poll_loop] in E. unfold bind in E.
  destruct (loop_body self mintime (x :: waiting) updated w) as [[[wa' u']|e|] w1] eqn:Eb.
  - apply loop_body_consumes in Eb. eapply IH; [|exact E]. lia.
  - discriminate.
  - injection E as <-. eapply waits_loop_body. exact Eb.
Qed.

(** The bound [poll_and_request_issuance] passes to the loop can be
    replaced by any larger one. *)
Lemma poll_loop_enough_fuel (self : Network) (mintime : Z) (n : nat)
    (waiting : list Entry) (updated : Dict) (w : World) :
  (List.length (script w) < n)%nat ->
  poll_loop n self mintime waiting updated w
  = poll_loop (S (List.length (script w))) self mintime waiting updated w.
Proof. intros Hn. apply poll_loop_fuel; lia. Qed.
End Properties.

(** * Concrete runs *)

(** ** Responses used below *)

Definition response_with (status : Z) (content_type : string)
    (extra : list (string * string)) (links : list (string * URI))
    (json : option JSON) : Response.t :=
{| Response.status_code := status;
   Response.headers := (("Content-Type", content_type) :: extra)%list;
   Response.links := links;
   Response.text := "";
   Response.json := json |}.

Definition registration_json (k : string) (contact : list string) : JSON :=
JObj [("key", JStr k); ("contact", JArr (map JStr contact))].

(** A "201 Created" answer to a new registration. *)
Definition registration_response (k : string) (contact : list string)
    (links : list (string * URI)) : Response.t :=
response_with 201 JSON_CONTENT_TYPE [("Location", "https://ca/reg/1")] links
              (Some (registration_json k contact)).

Definition challenge_response (location : URI) : Response.t :=
response_with 200 JSON_CONTENT_TYPE [("Location", location)] []
              (Some (JObj [("type", JStr "dvsni"); ("status", JStr "pending")])).

Definition challr0 : ChallengeResource.t :=
{| ChallengeResource.body := {| Challenge.typ := "dvsni"; Challenge.state := "new" |};
   ChallengeResource.uri := "https://ca/chall/1" |}.

Definition certr0 : CertificateResource.t :=
{| CertificateResource.authzrs := [authzr_at "https://ca/authz/1"];
   CertificateResource.body := "OLD";
   CertificateResource.uri := Some "https://ca/cert/1";
   CertificateResource.cert_chain_uri := "https://ca/chain" |}.

(** The certificate as the server hands it out, with the given Location. *)
Definition cert_at (location : URI) : Response.t :=
{| Response.status_code := 200;
   Response.headers := [("Content-Type", DER_CONTENT_TYPE); ("Location", location)];
   Response.links := [];
   Response.text := "NEW";
   Response.json := None |}.

Definition a1 : AuthorizationResource.t := authzr_at "https://ca/authz/1".
Definition a2 : AuthorizationResource.t := authzr_at "https://ca/authz/2".

(** ** The classifier *)

(** An HTML page where a certificate was expected is refused; a JSON body
    under a wrong content type, where JSON was expected, passes. *)
Lemma check_response_examples :
  (((exists e,
       @_check_response (sample true)
         (response_with 200 "text/html" [] [] None) (Some DER_CONTENT_TYPE) = Err e
       /\ fault_of e = Some TransportFault)
    <-> "text/html" <> DER_CONTENT_TYPE)
   /\ (@_check_response (sample true)
         (response_with 200 "text/html" [] [] None) (Some DER_CONTENT_TYPE) = Ok tt
       <-> "text/html" = DER_CONTENT_TYPE))
  /\ @_check_response (sample true)
       (response_with 200 "text/plain" [] [] (Some (JObj []))) (Some JSON_CONTENT_TYPE)
     = Ok tt.
Proof.
  split.
  - apply (proj1 (@check_response_mismatch_by_expected_type (sample true)
                    (response_with 200 "text/html" [] [] None)
                    DER_CONTENT_TYPE "text/html" eq_refl eq_refl)).
    discriminate.
  - apply (proj2 (@check_response_mismatch_by_expected_type (sample true)
                    (response_with 200 "text/plain" [] [] (Some (JObj [])))
                    JSON_CONTENT_TYPE "text/plain" eq_refl eq_refl)).
    + reflexivity.
    + discriminate.
Defined.

(** C5 fails as stated: a JSON body under the JSON content type, where the
    certificate type was expected, parses as JSON and is refused all the
    same. *)
Lemma json_body_does_not_excuse_mismatch :
  Response.ok (response_with 200 JSON_CONTENT_TYPE [] [] (Some (JObj []))) = true
  /\ Response.json (response_with 200 JSON_CONTENT_TYPE [] [] (Some (JObj [])))
       = Some (JObj [])
  /\ Response.header (response_with 200 JSON_CONTENT_TYPE [] [] (Some (JObj [])))
                     "content-type"
       = Some JSON_CONTENT_TYPE
  /\ JSON_CONTENT_TYPE <> DER_CONTENT_TYPE
  /\ exists e,
       @_check_response (sample true)
         (response_with 200 JSON_CONTENT_TYPE [] [] (Some (JObj [])))
         (Some DER_CONTENT_TYPE) = Err e
       /\ fault_of e = Some TransportFault.
Proof.
  repeat split; [discriminate|].
  eexists; split; reflexivity.
Qed.

(** What the code does where JSON is expected and the body does not parse:
    the check passes under any content type (the callers' [response.json()]
    is what fails then). *)
Lemma unparsable_body_passes_where_json_is_expected :
  @_check_response (sample true)
     (response_with 200 "text/html" [] [] None) (Some JSON_CONTENT_TYPE) = Ok tt.
Proof. reflexivity. Qed.

(** ** The reconcilers *)

(** A response without links: both reconcilers report the missing link. *)
Lemma missing_next_link_example :
  @_authzr_from_response (sample true) account
     (authz_response "pending" []) "example.com" None None
    = Err (NetworkError (NEMessage next_link_missing))
  /\ @_regr_from_response (sample true) (authz_response "pending" []) None None
       = Err (NetworkError (NEMessage next_link_missing))
  /\ fault_of (NetworkError (NEMessage next_link_missing)) = Some TransportFault.
Proof.
  destruct (@missing_next_link_is_transport_fault (sample true) account
              (authz_response "pending" []) "example.com" None eq_refl)
    as (Ha & Hr & Hf).
  split; [exact Ha | split; [exact (Hr eq_refl) | exact Hf]].
Defined.

(** C6 fails as stated: what is raised for the missing link is not a
    ProtocolError. *)
Lemma missing_next_link_is_no_protocol_error :
  exists e,
    @_authzr_from_response (sample true) account
       (authz_response "pending" []) "example.com" None None = Err e
    /\ @_regr_from_response (sample true)
         (registration_response "K" [] []) None None = Err e
    /\ fault_of e = Some TransportFault
    /\ fault_of e <> Some ProtocolError.
Proof.
  exists (NetworkError (NEMessage next_link_missing)).
  repeat split. discriminate.
Qed.

(** Three registration answers: both links, only "terms-of-service", only
    "next". *)
Lemma regr_terms_of_service_examples :
  (exists regr,
     @_regr_from_response (sample true)
        (registration_response "K" []
           [("next", "https://ca/new-authz"); ("terms-of-service", "https://ca/tos")])
        None None = Ok regr
     /\ RegistrationResource.terms_of_service regr = Some "https://ca/new-authz")
  /\ @_regr_from_response (sample true)
        (registration_response "K" [] [("terms-of-service", "https://ca/tos")])
        None None = Err (KeyError "next")
  /\ (@_regr_from_response (sample true)
        (registration_response "K" [] [("next", "https://ca/new-authz")])
        None None
      = Ok {| RegistrationResource.body :=
                {| Registration.key := Some "K"; Registration.contact := [] |};
              RegistrationResource.uri := Some "https://ca/reg/1";
              RegistrationResource.new_authz_uri := "https://ca/new-authz";
              RegistrationResource.terms_of_service := None |}
      /\ RegistrationResource.terms_of_service
           {| RegistrationResource.body :=
                {| Registration.key := Some "K"; Registration.contact := [] |};
              RegistrationResource.uri := Some "https://ca/reg/1";
              RegistrationResource.new_authz_uri := "https://ca/new-authz";
              RegistrationResource.terms_of_service := None |} = None).
Proof.
  split; [|split].
  - apply (proj1 (@regr_terms_of_service_is_next_link (sample true)
        (registration_response "K" []
           [("next", "https://ca/new-authz"); ("terms-of-service", "https://ca/tos")])
        None None) "https://ca/tos" "https://ca/new-authz"
        (registration_json "K" [])
        {| Registration.key := Some "K"; Registration.contact := [] |});
      reflexivity.
  - apply (proj1 (proj2 (@regr_terms_of_service_is_next_link (sample true)
        (registration_response "K" [] [("terms-of-service", "https://ca/tos")])
        None None)) "https://ca/tos"); reflexivity.
  - split; [reflexivity|].
    apply (proj2 (proj2 (@regr_terms_of_service_is_next_link (sample true)
        (registration_response "K" [] [("next", "https://ca/new-authz")])
        None None))); reflexivity.
Defined.

(** ** The flows *)

Definition contact0 : list string := ["mailto:admin@example.com"].

Definition regr_sent (k : string) : RegistrationResource.t :=
{| RegistrationResource.body :=
     {| Registration.key := Some k; Registration.contact := contact0 |};
   RegistrationResource.uri := Some "https://ca/reg/1";
   RegistrationResource.new_authz_uri := "https://ca/new-authz";
   RegistrationResource.terms_of_service := None |}.

(** The world in which the one request of a flow gets the given answer. *)
Definition answering (r : Response.t) : World := world_at 0 [Responded 0 r].

(** The world after that request went out as [req]. *)
Definition answered (req : Request) : World :=
{| clock := 0; script := []; trace := [Sent 0 req] |}.

Definition new_reg_request : Request :=
POST (Some "https://ca/new-reg")
     (@_wrap_in_jws account (PRegistration
        {| Registration.key := None; Registration.contact := contact0 |}))
     None.

(** A registration echoed back as sent returns it; one that comes back
    under another key raises UnexpectedUpdate. *)
Lemma register_examples :
  (Registration.key (RegistrationResource.body (regr_sent "K"))
     = Some (public (key account))
   /\ Registration.contact (RegistrationResource.body (regr_sent "K")) = contact0)
  /\ @register (sample true) account contact0
       (answering (registration_response "OTHER" contact0
                     [("next", "https://ca/new-authz")]))
     = (Raise (UnexpectedUpdate (OffRegr (regr_sent "OTHER"))),
        answered new_reg_request).
Proof.
  split.
  - apply (proj1 (@register_checks_key_and_contact (sample true) account contact0)
             (answering (registration_response "K" contact0
                           [("next", "https://ca/new-authz")]))
             (regr_sent "K") (answered new_reg_request)).
    reflexivity.
  - apply (proj2 (@register_checks_key_and_contact (sample true) account contact0)
             (answering (registration_response "OTHER" contact0
                           [("next", "https://ca/new-authz")]))
             (registration_response "OTHER" contact0 [("next", "https://ca/new-authz")])
             (answered new_reg_request) (regr_sent "OTHER")).
    + reflexivity.
    + right. reflexivity.
    + reflexivity.
    + left. discriminate.
Defined.

Definition challenge_request : Request :=
POST (Some "https://ca/chall/1")
     (@_wrap_in_jws account (PChallengeResponse "r")) None.

(** An answer that names another location raises; an answer at the
    challenge's own location updates the body and keeps the location. *)
Lemma answer_challenge_examples :
  @answer_challenge (sample true) account challr0 "r"
     (answering (challenge_response "https://ca/chall/2"))
  = (Raise (UnexpectedUpdate (OffText "https://ca/chall/2")),
     answered challenge_request)
  /\ @answer_challenge (sample true) account challr0 "r"
       (answering (challenge_response "https://ca/chall/1"))
     = (Ret {| ChallengeResource.body :=
                 {| Challenge.typ := "dvsni"; Challenge.state := "pending" |};
               ChallengeResource.uri := "https://ca/chall/1" |},
        answered challenge_request).
Proof.
  split.
  - apply (proj1 (@answer_challenge_checks_location (sample true) account challr0 "r"
                    (answering (challenge_response "https://ca/chall/2"))
                    (answered challenge_request)
                    (challenge_response "https://ca/chall/2") "https://ca/chall/2"
                    eq_refl eq_refl)).
    discriminate.
  - apply (proj2 (@answer_challenge_checks_location (sample true) account challr0 "r"
                    (answering (challenge_response "https://ca/chall/1"))
                    (answered challenge_request)
                    (challenge_response "https://ca/chall/1") "https://ca/chall/1"
                    eq_refl eq_refl)
                 eq_refl
                 (JObj [("type", JStr "dvsni"); ("status", JStr "pending")])
                 {| Challenge.typ := "dvsni"; Challenge.state := "pending" |});
      reflexivity.
Defined.

Definition revoke_request : Request :=
POST (Some "https://ca/cert/1")
     (@_wrap_in_jws account (PRevocation NOW [Some "https://ca/authz/1"])) None.

(** Revocation answered with status 200 returns; answered with 202 it
    raises [errors.NetworkError]. *)
Lemma revoke_examples :
  @revoke (sample true) account certr0 NOW
     (answering (response_with 200 JSON_CONTENT_TYPE [] [] None))
  = (Ret tt, answered revoke_request)
  /\ exists e,
       @revoke (sample true) account certr0 NOW
          (answering (response_with 202 JSON_CONTENT_TYPE [] [] None))
       = (Raise e, answered revoke_request)
       /\ e = NetworkError (NEMessage
                 "Successful revocation must return HTTP OK status")
       /\ fault_of e = Some TransportFault.
Proof.
  split.
  - apply (proj1 (@revoke_requires_ok (sample true) account certr0 NOW
                    (answering (response_with 200 JSON_CONTENT_TYPE [] [] None))
                    (answered revoke_request)
                    (response_with 200 JSON_CONTENT_TYPE [] [] None) eq_refl)).
    reflexivity.
  - apply (proj2 (@revoke_requires_ok (sample true) account certr0 NOW
                    (answering (response_with 202 JSON_CONTENT_TYPE [] [] None))
                    (answered revoke_request)
                    (response_with 202 JSON_CONTENT_TYPE [] [] None) eq_refl)).
    discriminate.
Defined.

(** C8 fails as stated: status 202 passes the classifier and is refused,
    but what is raised is [errors.NetworkError], not a ProtocolError. *)
Lemma revoke_accepted_is_no_protocol_error :
  exists e,
    @_post (sample true) (Some "https://ca/cert/1")
       (@_wrap_in_jws account (PRevocation NOW [Some "https://ca/authz/1"]))
       (Some JSON_CONTENT_TYPE) None
       (answering (response_with 202 JSON_CONTENT_TYPE [] [] None))
      = (Ret (response_with 202 JSON_CONTENT_TYPE [] [] None), answered revoke_request)
    /\ @revoke (sample true) account certr0 NOW
         (answering (response_with 202 JSON_CONTENT_TYPE [] [] None))
       = (Raise e, answered revoke_request)
    /\ fault_of e = Some TransportFault
    /\ fault_of e <> Some ProtocolError.
Proof.
  exists (NetworkError (NEMessage "Successful revocation must return HTTP OK status")).
  repeat split. discriminate.
Qed.

Definition cert_request : Request :=
GET (Some "https://ca/cert/1") (Some DER_CONTENT_TYPE).

(** C4 fails on the code: [check_cert] raises UnexpectedUpdate when the
    answer names the very location the resource has, and returns the
    refreshed resource when the answer names another one. *)
Theorem check_cert_raises_on_unchanged_location :
  @check_cert (sample true) certr0 (answering (cert_at "https://ca/cert/1"))
    = (Raise (UnexpectedUpdate (OffText "NEW")), answered cert_request)
  /\ @refresh (sample true) certr0 (answering (cert_at "https://ca/cert/1"))
    = (Raise (UnexpectedUpdate (OffText "NEW")), answered cert_request)
  /\ @check_cert (sample true) certr0 (answering (cert_at "https://ca/elsewhere"))
    = (Ret (CertificateResource.update_body certr0 "NEW"), answered cert_request).
Proof. repeat split. Qed.

(** ** The polling loop

    The runs below take the interpreter with assertions stripped
    ([sample false]): see [loop_assertion_stops_every_round]. *)

(** Two authorizations; the first is pending at its first poll, which takes
    0.3 s, the second is valid after 0.5 s, the first is valid at its second
    poll, and the certificate follows. *)
Definition two_authorizations : World :=
world_at 0 [Responded 300000 (authz_response "pending" []);
            Responded 500000 (authz_response "valid" []);
            Responded 0 (authz_response "valid" []);
            Responded 0 cert_response].

Definition new_cert_request : Request :=
POST (Some "https://ca/new-cert")
     (@_wrap_in_jws account
        (PCertificateRequest "csr" [Some "https://ca/authz/1"; Some "https://ca/authz/2"]))
     (Some DER_CONTENT_TYPE).

(** C1 fails on the code: with no Retry-After header and the default
    [mintime] of 5, the first authorization is pushed back due at 5.3 s; it
    is popped at 0.8 s, the 4.5 s left have a seconds field of 4, and the
    poll goes out at 4.8 s, half a second before it is due. *)
Theorem poll_sent_before_due_time :
  (exists updated' w1,
     @loop_body (sample false) sorted_list_heapq account 5
        [(0, a1); (0, a2)] (dict_of [a1; a2]) two_authorizations
     = (Ret ([(0, a2); (5300000, a1)], updated'), w1))
  /\ trace (snd (@poll_and_request_issuance (sample false) sorted_list_heapq
                   account "csr" [a1; a2] 5 two_authorizations))
     = [Sent 0 (GET (Some "https://ca/authz/1") None);
        Sent 300000 (GET (Some "https://ca/authz/2") None);
        Slept 800000 4;
        Sent 4800000 (GET (Some "https://ca/authz/1") None);
        Sent 4800000 new_cert_request]
  /\ 4800000 < 5300000.
Proof.
  split; [|split].
  - eexists _, _. vm_compute. reflexivity.
  - vm_compute. reflexivity.
  - reflexivity.
Qed.

(** One authorization that is valid at its first poll, and the certificate
    ready to be served. *)
Definition one_valid_authorization : World :=
world_at 0 [Responded 0 (authz_response "valid" []); Responded 0 cert_response].

(** C3 fails on the code: with assert statements on, as the interpreter
    runs by default, one authorization that its first poll finds valid ends
    [poll_and_request_issuance] in AssertionError, at
    [assert updated_authzr.uri == authzr], with the certificate endpoint
    never called: the one request of the run is the poll.  With the
    assertions stripped the same input gives the one POST to the
    authorization's [new_cert_uri] and a certificate resource that holds the
    resource passed in. *)
Theorem issuance_stopped_by_assertion :
  @poll_and_request_issuance (sample true) sorted_list_heapq
     account "csr" [a1] 5 one_valid_authorization
  = (Raise AssertionError,
     {| clock := 0;
        script := [Responded 0 cert_response];
        trace := [Sent 0 (GET (Some "https://ca/authz/1") None)] |})
  /\ posts (trace (snd (@poll_and_request_issuance (sample true) sorted_list_heapq
                          account "csr" [a1] 5 one_valid_authorization))) = []
  /\ (exists final w',
        @poll_and_request_issuance (sample false) sorted_list_heapq
           account "csr" [a1] 5 one_valid_authorization
        = (Ret ({| CertificateResource.authzrs := [a1];
                   CertificateResource.body := "DER";
                   CertificateResource.uri := None;
                   CertificateResource.cert_chain_uri := "https://ca/chain" |},
                final), w')
        /\ posts (trace w')
           = [POST (Some (AuthorizationResource.new_cert_uri a1))
                   (@_wrap_in_jws account (PCertificateRequest "csr" [Some "https://ca/authz/1"]))
                   (Some DER_CONTENT_TYPE)]).
Proof.
  split; [vm_compute; reflexivity|]. split; [vm_compute; reflexivity|].
  eexists _, _. split; vm_compute; reflexivity.
Qed.

(** A round whose poll finds the authorization valid leaves the queue
    empty. *)
Lemma valid_round_example :
  exists waiting' updated' w',
    @loop_body (sample false) sorted_list_heapq account 5
       [(0, a1)] (dict_of [a1]) (answering (authz_response "valid" []))
      = (Ret (waiting', updated'), w')
    /\ exists when authzr rest updated_authzr response,
         @heappop sorted_list_heapq [(0, a1)] = Some ((when, authzr), rest) /\
         @poll (sample false) account authzr
            (after_wait when (answering (authz_response "valid" [])))
           = (Ret (updated_authzr, response), w') /\
         dict_get updated' authzr = Some updated_authzr /\
         ((valid updated_authzr /\ waiting' = rest /\
           (NoDup (map entry_uri [(0, a1)]) ->
            forall fuel upd w1 out w2,
              @poll_loop (sample false) sorted_list_heapq fuel account 5 waiting' upd w1
                = (out, w2) ->
              exists evs, trace w2 = (trace w1 ++ evs)%list /\
                Forall (fun e => ~ polls_uri (AuthorizationResource.uri authzr) e) evs))
          \/ (~ valid updated_authzr /\
              exists t, waiting' = @heappush sorted_list_heapq rest (t, authzr)
                        /\ In (t, authzr) waiting')).
Proof.
  pose proof (@requeued_unless_valid (sample false) sorted_list_heapq account 5
                [(0, a1)]) as T.
  eexists ?[q], ?[u], ?[w'].
  assert (@loop_body (sample false) sorted_list_heapq account 5
            [(0, a1)] (dict_of [a1]) (answering (authz_response "valid" []))
          = (Ret (?q, ?u), ?w')) as E
    by (vm_compute; reflexivity).
  split; [exact E | exact (T _ _ _ _ _ E)].
Defined.

(** C9 fails as stated: an authorization whose poll finds the failure
    status "invalid" is pushed back, due [mintime] later, and polled again
    and again until it is valid. *)
Lemma failed_authorization_is_polled_again :
  (exists updated' w',
     @loop_body (sample false) sorted_list_heapq account 5
        [(0, a1)] (dict_of [a1]) (answering (authz_response "invalid" []))
       = (Ret ([(5000000, a1)], updated'), w')
     /\ option_map (fun v => Authorization.status (AuthorizationResource.body v))
                   (dict_get updated' a1) = Some (Some "invalid")
     /\ In a1 (map snd [(5000000, a1)]))
  /\ trace (snd (@poll_loop (sample false) sorted_list_heapq 3 account 5
                   [(0, a1)] (dict_of [a1])
                   (world_at 0 [Responded 0 (authz_response "invalid" []);
                                Responded 0 (authz_response "invalid" []);
                                Responded 0 (authz_response "valid" [])])))
     = [Sent 0 (GET (Some "https://ca/authz/1") None);
        Slept 0 5;
        Sent 5000000 (GET (Some "https://ca/authz/1") None);
        Slept 5000000 5;
        Sent 10000000 (GET (Some "https://ca/authz/1") None)].
Proof.
  split.
  - eexists _, _. split; [vm_compute; reflexivity|].
    split; [vm_compute; reflexivity | left; reflexivity].
  - vm_compute. reflexivity.
Qed.

(** A Retry-After of one day has a seconds field of 0: the loop does not
    sleep at all before the next poll. *)
Lemma one_day_retry_after_is_not_waited :
  trace (snd (@poll_loop (sample false) sorted_list_heapq 2 account 5
                [(0, a1)] (dict_of [a1])
                (world_at 0 [Responded 0 (authz_response "pending" [("Retry-After", "86400")]);
                             Responded 0 (authz_response "valid" [])])))
  = [Sent 0 (GET (Some "https://ca/authz/1") None);
     Slept 0 0;
     Sent 0 (GET (Some "https://ca/authz/1") None)].
Proof. vm_compute. reflexivity. Qed.

(** * Further properties of the flows *)

(** The outcome is a returned value. *)
Definition returned {A} (o : Outcome A) : bool :=
match o with
| Ret _ => true
| _ => false
end.

(** The exceptions [_check_response] raises by itself. *)
Definition classifier_fault (e : Exn) : Prop :=
e = KeyError "content-type"
\/ (exists arg, e = NetworkError arg)
\/ (exists detail, e = Messages2Error detail).

Section Further.
Context {X : Externals} {H : Heapq}.

(** ** The classifier and the HTTP layer *)

Lemma check_response_ok_inv (response : Response.t) (content_type : option string) :
  _check_response response content_type = Ok tt ->
  Response.ok response = true
  /\ exists response_ct,
       Response.header response "content-type" = Some response_ct
       /\ forall expected, content_type = Some expected ->
            response_ct = expected \/ expected = JSON_CONTENT_TYPE.
Proof.
  unfold _check_response.
  destruct (Response.header response "content-type") as [rct|]; [|discriminate].
  destruct (Response.ok response); simpl.
  - intros E. split; [reflexivity|]. exists rct. split; [reflexivity|].
    intros expected ->.
    destruct (String.eqb_spec rct expected); [left; assumption|].
    destruct (String.eqb_spec expected JSON_CONTENT_TYPE); [right; assumption|].
    discriminate E.
  - destruct (jobj_of response) as [j|];
      [destruct (Error_from_json j)|]; discriminate.
Qed.

Lemma check_response_err_inv (response : Response.t) (content_type : option string)
    (e : Exn) :
  _check_response response content_type = Err e -> classifier_fault e.
Proof.
  unfold _check_response, classifier_fault.
  destruct (Response.header response "content-type") as [rct|].
  2:{ intros E. injection E as <-. left. reflexivity. }
  destruct (Response.ok response); simpl.
  - destruct content_type as [ct|]; [|discriminate].
    destruct (negb (rct =? ct)%string && negb (ct =? JSON_CONTENT_TYPE)%string);
      [|discriminate].
    intros E. injection E as <-. right. left. eexists. reflexivity.
  - destruct (jobj_of response) as [j|]; [destruct (Error_from_json j)|];
      intros E; injection E as <-; [right; right | right; left | right; left];
      eexists; reflexivity.
Qed.

(** X1: a response with a 4xx or 5xx status never passes the classifier,
    whatever content type is expected.  A body that parses to something
    other than null and decodes as a problem record is raised as
    [messages2.Error] carrying that record; a parsed body that does not
    decode is raised as [errors.NetworkError] carrying the response and the
    decoding failure; a body that is no JSON, and the body [null], which
    parses to None, are raised as [errors.NetworkError] carrying the
    response. *)
Theorem failure_status_is_always_raised
    (response : Response.t) (content_type : option string) (response_ct : string) :
  Response.ok response = false ->
  Response.header response "content-type" = Some response_ct ->
  _check_response response content_type =
    Err (match Response.json response with
         | Some JNull | None => NetworkError (NEResponse response)
         | Some jobj =>
             match Error_from_json jobj with
             | Some detail => Messages2Error detail
             | None => NetworkError (NEResponseError response)
             end
         end)
  /\ (Response.json response = None \/ Response.json response = Some JNull ->
      exists e, _check_response response content_type = Err e
                /\ fault_of e = Some TransportFault)
  /\ (forall jobj detail,
        Response.json response = Some jobj ->
        jobj <> JNull ->
        Error_from_json jobj = Some detail ->
        exists e, _check_response response content_type = Err e
                  /\ fault_of e = Some ProtocolError).
Proof.
  intros Hok Hct. unfold _check_response, jobj_of. rewrite Hct, Hok. simpl.
  split; [|split].
  - destruct (Response.json response) as [[]|];
      try destruct (Error_from_json _); reflexivity.
  - intros [-> | ->]; eexists; split; reflexivity.
  - intros jobj detail -> Hn He.
    destruct jobj; try contradiction; rewrite He; eexists; split; reflexivity.
Qed.

Lemma http_outcomes
    (uri : option URI) (data : JWS) (content_type accept : option string)
    (w : World) :
  (forall out w',
      _get uri content_type accept w = (out, w') ->
      match out with
      | Ret response =>
          Response.ok response = true
          /\ exists u dt, uri = Some u /\ script w = Responded dt response :: script w'
      | Raise e => classifier_fault e
      | Blocked => script w' = []
      end)
  /\ (forall out w',
      _post uri data content_type accept w = (out, w') ->
      match out with
      | Ret response =>
          Response.ok response = true
          /\ exists u dt, uri = Some u /\ script w = Responded dt response :: script w'
      | Raise e => classifier_fault e
      | Blocked => script w' = []
      end).
Proof.
  assert (forall req out w',
    bind (except_RequestException (requests_call uri req))
         (fun response => bind (lift (_check_response response content_type))
                               (fun _ => ret response)) w = (out, w') ->
    match out with
    | Ret response =>
        Response.ok response = true
        /\ exists u dt, uri = Some u /\ script w = Responded dt response :: script w'
    | Raise e => classifier_fault e
    | Blocked => script w' = []
    end) as Hcall.
  { intros req out w'. unfold bind, except_RequestException, requests_call.
    destruct (sendable uri) eqn:Hs.
    - destruct uri as [u|]; [|discriminate Hs].
      destruct (script w) as [|[dt r|dt what] rest] eqn:Es.
      + intros E. injection E as <- <-. reflexivity.
      + destruct (_check_response r content_type) as [[]|e] eqn:Ec; simpl;
          intros E; injection E as <- <-.
        * split; [apply (check_response_ok_inv _ _ Ec)|].
          exists u, dt. split; reflexivity.
        * apply (check_response_err_inv _ _ _ Ec).
      + intros E. injection E as <- <-. right. left. eexists. reflexivity.
    - intros E. injection E as <- <-. right. left. eexists. reflexivity. }
  split; intros out w'; apply Hcall.
Qed.

(** X2: what [_get] and [_post] can do.  A response they return has passed
    the classifier, so its status is no 4xx or 5xx one, and it is the next
    reply of the network; a failure inside [requests] never escapes as such:
    what they raise is [errors.NetworkError], [messages2.Error], or the
    KeyError of a response without a Content-Type header. *)
Theorem http_layer_outcomes
    (uri : option URI) (data : JWS) (content_type accept : option string)
    (w : World) :
  (forall out w',
      _get uri content_type accept w = (out, w') ->
      match out with
      | Ret response =>
          Response.ok response = true
          /\ exists u dt, uri = Some u /\ script w = Responded dt response :: script w'
      | Raise e => classifier_fault e
      | Blocked => script w' = []
      end)
  /\ (forall out w',
      _post uri data content_type accept w = (out, w') ->
      match out with
      | Ret response =>
          Response.ok response = true
          /\ exists u dt, uri = Some u /\ script w = Responded dt response :: script w'
      | Raise e => classifier_fault e
      | Blocked => script w' = []
      end).
Proof.
  assert (forall req out w',
    bind (except_RequestException (requests_call uri req))
         (fun response => bind (lift (_check_response response content_type))
                               (fun _ => ret response)) w = (out, w') ->
    match out with
    | Ret response =>
        Response.ok response = true
        /\ exists u dt, uri = Some u /\ script w = Responded dt response :: script w'
    | Raise e => classifier_fault e
    | Blocked => script w' = []
    end) as Hcall.
  { intros req out w'. unfold bind, except_RequestException, requests_call.
    destruct (sendable uri) eqn:Hs.
    - destruct uri as [u|]; [|discriminate Hs].
      destruct (script w) as [|[dt r|dt what] rest] eqn:Es.
      + intros E. injection E as <- <-. reflexivity.
      + destruct (_check_response r content_type) as [[]|e] eqn:Ec; simpl;
          intros E; injection E as <- <-.
        * split; [apply (check_response_ok_inv _ _ Ec)|].
          exists u, dt. split; reflexivity.
        * apply (check_response_err_inv _ _ _ Ec).
      + intros E. injection E as <- <-. right. left. eexists. reflexivity.
    - intros E. injection E as <- <-. right. left. eexists. reflexivity. }
  split; intros out w'; apply Hcall.
Qed.

(** ** The reconcilers, [poll] and [update_registration] *)

Lemma authzr_from_response_inv
    (self : Network) (response : Response.t) (identifier : Identifier)
    (uri new_cert_uri : option URI) :
  (forall authzr,
      _authzr_from_response self response identifier uri new_cert_uri = Ok authzr ->
      Authorization.key (AuthorizationResource.body authzr) = Some (public (key self))
      /\ Authorization.identifier (AuthorizationResource.body authzr) = identifier
      /\ AuthorizationResource.uri authzr = location_or response uri
      /\ match new_cert_uri with
         | Some u => AuthorizationResource.new_cert_uri authzr = u
         | None => Response.link response "next"
                   = Some (AuthorizationResource.new_cert_uri authzr)
         end)
  /\ (forall next jobj body,
      match new_cert_uri with
      | Some u => next = u
      | None => Response.link response "next" = Some next
      end ->
      Response.json response = Some jobj ->
      Authorization_from_json jobj = Some body ->
      Authorization.key body <> Some (public (key self))
      \/ Authorization.identifier body <> identifier ->
      _authzr_from_response self response identifier uri new_cert_uri
      = Err (UnexpectedUpdate (OffAuthzr
               {| AuthorizationResource.body := body;
                  AuthorizationResource.uri := location_or response uri;
                  AuthorizationResource.new_cert_uri := next |}))).
Proof.
  split.
  - intros authzr E. unfold _authzr_from_response in E.
    apply rbind_ok_inv in E. destruct E as (ncu & Encu & E).
    apply rbind_ok_inv in E. destruct E as (jobj & Ej & E).
    apply rbind_ok_inv in E. destruct E as (body & Eb & E).
    destruct (option_string_eq_dec _ _) as [Hk|]; [|discriminate].
    destruct (string_dec _ _) as [Hi|]; [|discriminate].
    injection E as <-. simpl. repeat split; auto.
    destruct new_cert_uri as [u|]; [congruence|].
    apply of_option_ok in Encu. exact Encu.
  - intros next jobj body Hnext Hj Hb Hdiff. unfold _authzr_from_response.
    assert (match new_cert_uri with
            | Some u => Ok u
            | None => of_option (Response.link response "next")
                        (NetworkError (NEMessage next_link_missing))
            end = Ok next) as ->.
    { destruct new_cert_uri; [congruence | rewrite Hnext; reflexivity]. }
    simpl. rewrite Hj. simpl. rewrite Hb. simpl.
    destruct (option_string_eq_dec _ _) as [Hk|]; [|reflexivity].
    destruct (string_dec _ _) as [Hi|]; [|reflexivity].
    destruct Hdiff; contradiction.
Qed.

(** X3: an authorization resource that [_authzr_from_response] returns has
    the account's public key and the identifier that was asked for; its URI
    is the Location header, or else the caller's; its [new_cert_uri] is the
    caller's, or else the "next" link.  A body that decodes with another key
    or identifier is raised as UnexpectedUpdate carrying the resource. *)
Theorem authzr_from_response_fields
    (self : Network) (response : Response.t) (identifier : Identifier)
    (uri new_cert_uri : option URI) :
  (forall authzr,
      _authzr_from_response self response identifier uri new_cert_uri = Ok authzr ->
      Authorization.key (AuthorizationResource.body authzr) = Some (public (key self))
      /\ Authorization.identifier (AuthorizationResource.body authzr) = identifier
      /\ AuthorizationResource.uri authzr = location_or response uri
      /\ match new_cert_uri with
         | Some u => AuthorizationResource.new_cert_uri authzr = u
         | None => Response.link response "next"
                   = Some (AuthorizationResource.new_cert_uri authzr)
         end)
  /\ (forall next jobj body,
      match new_cert_uri with
      | Some u => next = u
      | None => Response.link response "next" = Some next
      end ->
      Response.json response = Some jobj ->
      Authorization_from_json jobj = Some body ->
      Authorization.key body <> Some (public (key self))
      \/ Authorization.identifier body <> identifier ->
      _authzr_from_response self response identifier uri new_cert_uri
      = Err (UnexpectedUpdate (OffAuthzr
               {| AuthorizationResource.body := body;
                  AuthorizationResource.uri := location_or response uri;
                  AuthorizationResource.new_cert_uri := next |}))).
Proof.
  split.
  - intros authzr E. unfold _authzr_from_response in E.
    apply rbind_ok_inv in E. destruct E as (ncu & Encu & E).
    apply rbind_ok_inv in E. destruct E as (jobj & Ej & E).
    apply rbind_ok_inv in E. destruct E as (body & Eb & E).
    destruct (option_string_eq_dec _ _) as [Hk|]; [|discriminate].
    destruct (string_dec _ _) as [Hi|]; [|discriminate].
    injection E as <-. simpl. repeat split; auto.
    destruct new_cert_uri as [u|]; [congruence|].
    apply of_option_ok in Encu. exact Encu.
  - intros next jobj body Hnext Hj Hb Hdiff. unfold _authzr_from_response.
    assert (match new_cert_uri with
            | Some u => Ok u
            | None => of_option (Response.link response "next")
                        (NetworkError (NEMessage next_link_missing))
            end = Ok next) as ->.
    { destruct new_cert_uri; [congruence | rewrite Hnext; reflexivity]. }
    simpl. rewrite Hj. simpl. rewrite Hb. simpl.
    destruct (option_string_eq_dec _ _) as [Hk|]; [|reflexivity].
    destruct (string_dec _ _) as [Hi|]; [|reflexivity].
    destruct Hdiff; contradiction.
Qed.

Lemma poll_ret_fields
    (self : Network) (authzr updated_authzr : AuthorizationResource.t)
    (response : Response.t) (w w' : World) :
  poll self authzr w = (Ret (updated_authzr, response), w') ->
  trace w' = (trace w ++ [Sent (clock w) (GET (AuthorizationResource.uri authzr) None)])%list
  /\ Response.ok response = true
  /\ Authorization.identifier (AuthorizationResource.body updated_authzr)
     = Authorization.identifier (AuthorizationResource.body authzr)
  /\ Authorization.key (AuthorizationResource.body updated_authzr)
     = Some (public (key self))
  /\ AuthorizationResource.new_cert_uri updated_authzr
     = AuthorizationResource.new_cert_uri authzr
  /\ AuthorizationResource.uri updated_authzr
     = location_or response (AuthorizationResource.uri authzr).
Proof.
  intros E.
  destruct (poll_ret_inv _ _ _ _ _ _ E) as (u & dt & Hu & _ & Ht & _ & Ha).
  destruct (proj1 (authzr_from_response_inv _ _ _ _ _) _ Ha) as (Hk & Hi & Hl & Hn).
  unfold poll in E. bind_inv E as r w1 Eg. bind_inv E as ua w2 El.
  apply lift_ret_inv in El. destruct El as [_ ->].
  unfold ret in E. injection E as <- <- <-.
  destruct (proj1 (http_outcomes _ {| payload := PChallengeResponse "";
                      signer := key self; signed_with := "" |} _ _ _) _ _ Eg)
    as (Hok & _).
  rewrite Hu in *. repeat split; auto.
Qed.

(** X4: a poll that returns has sent one GET, at the polled resource's own
    URI and without an Accept header, and hands back the reply with a
    snapshot that keeps the polled resource's identifier and [new_cert_uri],
    has the account's key, and takes its URI from the Location header when
    there is one and from the polled resource otherwise. *)
Theorem poll_keeps_identity
    (self : Network) (authzr updated_authzr : AuthorizationResource.t)
    (response : Response.t) (w w' : World) :
  poll self authzr w = (Ret (updated_authzr, response), w') ->
  trace w' = (trace w ++ [Sent (clock w) (GET (AuthorizationResource.uri authzr) None)])%list
  /\ Response.ok response = true
  /\ Authorization.identifier (AuthorizationResource.body updated_authzr)
     = Authorization.identifier (AuthorizationResource.body authzr)
  /\ Authorization.key (AuthorizationResource.body updated_authzr)
     = Some (public (key self))
  /\ AuthorizationResource.new_cert_uri updated_authzr
     = AuthorizationResource.new_cert_uri authzr
  /\ AuthorizationResource.uri updated_authzr
     = location_or response (AuthorizationResource.uri authzr).
Proof.
  intros E.
  destruct (poll_ret_inv _ _ _ _ _ _ E) as (u & dt & Hu & _ & Ht & _ & Ha).
  destruct (proj1 (authzr_from_response_inv _ _ _ _ _) _ Ha) as (Hk & Hi & Hl & Hn).
  unfold poll in E. bind_inv E as r w1 Eg. bind_inv E as ua w2 El.
  apply lift_ret_inv in El. destruct El as [_ ->].
  unfold ret in E. injection E as <- <- <-.
  destruct (proj1 (http_outcomes _ {| payload := PChallengeResponse "";
                      signer := key self; signed_with := "" |} _ _ _) _ _ Eg)
    as (Hok & _).
  rewrite Hu in *. repeat split; auto.
Qed.

Lemma regr_from_response_new_authz_uri (response : Response.t)
    (uri new_authz_uri : option URI) (regr : RegistrationResource.t) :
  _regr_from_response response uri new_authz_uri = Ok regr ->
  match new_authz_uri with
  | Some u => RegistrationResource.new_authz_uri regr = u
  | None => Response.link response "next"
            = Some (RegistrationResource.new_authz_uri regr)
  end.
Proof.
  unfold _regr_from_response. intros E.
  apply rbind_ok_inv in E. destruct E as (tos & _ & E).
  apply rbind_ok_inv in E. destruct E as (nau & Enau & E).
  apply rbind_ok_inv in E. destruct E as (jobj & _ & E).
  apply rbind_ok_inv in E. destruct E as (body & _ & E).
  injection E as <-. simpl.
  destruct new_authz_uri as [u|]; [congruence|].
  apply of_option_ok in Enau. exact Enau.
Qed.

(** The exception is no UnexpectedUpdate. *)
Definition not_unexpected_update (e : Exn) : bool :=
match e with
| UnexpectedUpdate _ => false
| _ => true
end.

Lemma classifier_fault_not_unexpected (e : Exn) :
  classifier_fault e -> not_unexpected_update e = true.
Proof. intros [->|[(a & ->)|(d & ->)]]; reflexivity. Qed.

Lemma regr_from_response_not_unexpected (response : Response.t)
    (uri new_authz_uri : option URI) (e : Exn) :
  _regr_from_response response uri new_authz_uri = Err e ->
  not_unexpected_update e = true.
Proof.
  unfold _regr_from_response.
  destruct (Response.link response "terms-of-service");
    [destruct (Response.link response "next")|];
    destruct new_authz_uri; simpl;
    try (intros E; injection E as <-; reflexivity);
    try destruct (Response.link response "next"); simpl;
    try (intros E; injection E as <-; reflexivity);
    (destruct (Response.json response) as [j|]; simpl;
     [destruct (Registration_from_json j); simpl|]);
    intros E; try discriminate E; injection E as <-; reflexivity.
Qed.

(** X5: [update_registration] posts the body to the resource's own URI
    and, when it returns, has taken the next reply of the network as its
    answer: the result keeps the resource's [new_authz_uri] whatever links
    that answer has, its URI is that answer's Location header, or else the
    old URI, and its body is the one decoded from that answer.  Nothing of
    the answer is compared with the resource it updates: the call never
    raises UnexpectedUpdate. *)
Theorem update_registration_keeps_new_authz_uri
    (self : Network) (regr : RegistrationResource.t) (w : World) :
  (forall updated_regr w',
      update_registration self regr w = (Ret updated_regr, w') ->
      RegistrationResource.new_authz_uri updated_regr
        = RegistrationResource.new_authz_uri regr
      /\ trace w' = (trace w ++
           [Sent (clock w)
              (POST (RegistrationResource.uri regr)
                    (_wrap_in_jws self (PRegistration (RegistrationResource.body regr)))
                    None)])%list
      /\ exists dt response jobj,
           script w = Responded dt response :: script w'
           /\ RegistrationResource.uri updated_regr
              = location_or response (RegistrationResource.uri regr)
           /\ Response.json response = Some jobj
           /\ Registration_from_json jobj
              = Some (RegistrationResource.body updated_regr))
  /\ (forall e w',
      update_registration self regr w = (Raise e, w') ->
      not_unexpected_update e = true).
Proof.
  split.
  - intros updated_regr w' E. unfold update_registration in E.
    bind_inv E as response w1 Ep.
    apply lift_ret_inv in E. destruct E as [E ->].
    destruct (post_ret_sent _ _ _ _ _ _ _ Ep) as (Ht & dt & Hs).
    split; [exact (regr_from_response_new_authz_uri _ _ _ _ E)|].
    split; [exact Ht|].
    destruct (regr_from_response_ok _ _ _ _ E) as (jobj & body & Hj & Hb & Hbody & Huri & _).
    exists dt, response, jobj. subst body. auto.
  - intros e w' E. unfold update_registration, bind in E.
    destruct (_post _ _ _ _ w) as [[response|e0|] w1] eqn:Ep.
    + destruct (_regr_from_response response _ _) as [r|e1] eqn:Er; simpl in E;
        unfold ret, raise in E; [discriminate|].
      injection E as <- <-. exact (regr_from_response_not_unexpected _ _ _ _ Er).
    + injection E as <- <-. apply classifier_fault_not_unexpected.
      exact (proj2 (http_outcomes _ _ _ _ _) _ _ Ep).
    + discriminate.
Qed.

(** X6: with assert statements on, [register] and [request_challenges] accept
    status 201 only: an answer that passed the classifier under any other
    status, 200 included, ends the call with AssertionError, whatever it
    carries. *)
Theorem created_status_is_asserted
    (self : Network) (w w1 : World) (response : Response.t) :
  debug = true ->
  Response.status_code response <> CREATED ->
  (forall contact,
      _post (Some (new_reg_uri self))
            (_wrap_in_jws self (PRegistration
               {| Registration.key := None; Registration.contact := contact |}))
            (Some JSON_CONTENT_TYPE) None w = (Ret response, w1) ->
      register self contact w = (Raise AssertionError, w1))
  /\ (forall identifier regr,
      _post (Some (RegistrationResource.new_authz_uri regr))
            (_wrap_in_jws self (PAuthorization
               {| Authorization.identifier := identifier;
                  Authorization.key := None;
                  Authorization.status := None |}))
            (Some JSON_CONTENT_TYPE) None w = (Ret response, w1) ->
      request_challenges self identifier regr w = (Raise AssertionError, w1)).
Proof.
  intros Hd Hs.
  assert (assert_ (Response.status_code response =? CREATED) w1
          = (Raise AssertionError, w1)) as Ha.
  { unfold assert_. rewrite Hd.
    destruct (Z.eqb_spec (Response.status_code response) CREATED); [contradiction|].
    reflexivity. }
  split.
  - intros contact Ep. unfold register.
    rewrite (bind_step _ _ _ _ _ Ep). apply bind_raise. exact Ha.
  - intros identifier regr Ep. unfold request_challenges.
    rewrite (bind_step _ _ _ _ _ Ep). apply bind_raise. exact Ha.
Qed.

(** X7: [request_challenges] sends one POST of a new authorization for the
    identifier to the registration's [new_authz_uri] and, when it returns,
    has taken the next reply of the network as its answer: the result is for
    the identifier that was asked for and for the account's key, its
    [new_cert_uri] is the "next" link of that answer and its URI that
    answer's Location header (none when the header is missing). *)
Theorem request_challenges_result
    (self : Network) (identifier : Identifier) (regr : RegistrationResource.t)
    (w w' : World) (authzr : AuthorizationResource.t) :
  request_challenges self identifier regr w = (Ret authzr, w') ->
  Authorization.identifier (AuthorizationResource.body authzr) = identifier
  /\ Authorization.key (AuthorizationResource.body authzr) = Some (public (key self))
  /\ trace w' = (trace w ++
       [Sent (clock w)
          (POST (Some (RegistrationResource.new_authz_uri regr))
                (_wrap_in_jws self (PAuthorization
                   {| Authorization.identifier := identifier;
                      Authorization.key := None;
                      Authorization.status := None |}))
                None)])%list
  /\ exists dt response,
       script w = Responded dt response :: script w'
       /\ Response.link response "next" = Some (AuthorizationResource.new_cert_uri authzr)
       /\ AuthorizationResource.uri authzr = Response.header response "location"
       /\ (debug = false \/ Response.status_code response = CREATED).
Proof.
  intros E. unfold request_challenges in E.
  bind_inv E as response w1 Ep. bind_inv E as [] w2 Ea.
  apply assert_ret_inv in Ea. destruct Ea as [-> Ha].
  apply lift_ret_inv in E. destruct E as [E ->].
  destruct (proj1 (authzr_from_response_inv _ _ _ _ _) _ E) as (Hk & Hi & Hl & Hn).
  destruct (post_ret_sent _ _ _ _ _ _ _ Ep) as (Ht & dt & Hs).
  repeat split; auto.
  exists dt, response. split; [exact Hs|]. split; [exact Hn|]. split.
  - rewrite Hl. unfold location_or.
    destruct (Response.header response "location"); reflexivity.
  - destruct Ha as [Ha|Ha]; [left; exact Ha|].
    right. apply Z.eqb_eq. exact Ha.
Qed.

(** ** Challenges *)

Lemma answer_challenge_trace (self : Network) (challr : ChallengeResource.t)
    (resp : string) (w w' : World) (out : Outcome ChallengeResource.t) :
  answer_challenge self challr resp w = (out, w') ->
  (valid_url (ChallengeResource.uri challr) = true
   /\ trace w' = (trace w ++
         [Sent (clock w)
            (POST (Some (ChallengeResource.uri challr))
                  (_wrap_in_jws self (PChallengeResponse resp)) None)])%list)
  \/ (valid_url (ChallengeResource.uri challr) = false
      /\ w' = w /\ exists e, out = Raise e).
Proof.
  destruct (valid_url (ChallengeResource.uri challr)) eqn:Hu.
  - intros E. left. split; [reflexivity|]. revert E.
    unfold answer_challenge. unfold bind at 1.
    destruct (_post _ _ _ _ w) as [[response|e|] w1] eqn:Ep;
      apply (post_trace _ _ _ _ _ _ _ Hu) in Ep;
      try (intros E; injection E as <- <-; exact Ep).
    unfold bind.
    destruct (Response.header response "location") as [l|]; simpl;
      [destruct (string_dec l (ChallengeResource.uri challr));
       [destruct (Response.json response) as [j|]; simpl;
        [destruct (Challenge_from_json j); simpl|]|]|];
      intros E; injection E as <- <-; exact Ep.
  - intros E. right. split; [reflexivity|].
    unfold answer_challenge in E.
    rewrite (bind_raise _ _ _ _ _ (post_refused _ _ _ _ _ Hu)) in E.
    injection E as <- <-. split; [reflexivity|]. eexists; reflexivity.
Qed.

Lemma answer_challenge_keeps_uri (self : Network) (challr updated : ChallengeResource.t)
    (resp : string) (w w' : World) :
  answer_challenge self challr resp w = (Ret updated, w') ->
  ChallengeResource.uri updated = ChallengeResource.uri challr.
Proof.
  unfold answer_challenge. intros E.
  bind_inv E as response w1 _. bind_inv E as location w2 _.
  destruct (string_dec location (ChallengeResource.uri challr)); [|discriminate].
  bind_inv E as jobj w3 _. bind_inv E as body w4 _.
  unfold ret in E. injection E as <- _. reflexivity.
Qed.

(** The POST [answer_challenge] sends for a challenge and a response. *)
Definition challenge_post (self : Network) (pair : ChallengeResource.t * string)
  : Request :=
POST (Some (ChallengeResource.uri (fst pair)))
     (_wrap_in_jws self (PChallengeResponse (snd pair))) None.

Lemma answer_challenges_sent (self : Network) (challrs : list ChallengeResource.t) :
  forall (responses : list string) (w w' : World)
         (out : Outcome (list ChallengeResource.t)),
  answer_challenges self challrs responses w = (out, w') ->
  exists evs n,
    trace w' = (trace w ++ evs)%list
    /\ posts evs = firstn n (map (challenge_post self) (combine challrs responses))
    /\ List.length evs = n
    /\ forall updated, out = Ret updated ->
         n = List.length (combine challrs responses)
         /\ List.length updated = n
         /\ map ChallengeResource.uri updated
            = map ChallengeResource.uri (firstn n challrs).
Proof.
  induction challrs as [|challr challrs IH]; intros responses w w' out E.
  - simpl in E. unfold ret in E. injection E as <- <-.
    exists [], 0%nat. split; [symmetry; apply app_nil_r|].
    split; [reflexivity|]. split; [reflexivity|].
    intros updated Eu. injection Eu as <-. repeat split; reflexivity.
  - destruct responses as [|resp responses].
    + simpl in E. unfold ret in E. injection E as <- <-.
      exists [], 0%nat. split; [symmetry; apply app_nil_r|].
      split; [reflexivity|]. split; [reflexivity|].
      intros updated Eu. injection Eu as <-. repeat split; reflexivity.
    + cbn [answer_challenges] in E. unfold bind at 1 in E.
      destruct (answer_challenge self challr resp w) as [[c|e|] w1] eqn:Ec;
        destruct (answer_challenge_trace _ _ _ _ _ _ Ec)
          as [[_ Ht]|(_ & Hw & e' & He)]; try discriminate He.
      * unfold bind at 1 in E.
        destruct (answer_challenges self challrs responses w1) as [[cs|e|] w2] eqn:Ecs;
          destruct (IH _ _ _ _ Ecs) as (evs & n & T & P & L & R);
          injection E as <- <-;
          (eexists (_ :: evs), (S n); split;
           [rewrite T, Ht, <- app_assoc; reflexivity|];
           split; [simpl; unfold challenge_post at 1; simpl; rewrite P; reflexivity|];
           split; [simpl; rewrite L; reflexivity|]);
          intros updated Eu; try discriminate Eu.
        injection Eu as <-.
        destruct (R cs eq_refl) as (Hn & Hl & Hu).
        split; [simpl; rewrite Hn; reflexivity|].
        split; [simpl; rewrite Hl; reflexivity|].
        simpl. rewrite Hu, (answer_challenge_keeps_uri _ _ _ _ _ _ Ec). reflexivity.
      * injection E as <- <-.
        exists [Sent (clock w)
                  (POST (Some (ChallengeResource.uri challr))
                        (_wrap_in_jws self (PChallengeResponse resp)) None)], 1%nat.
        split; [exact Ht|]. split; [reflexivity|]. split; [reflexivity|].
        intros updated Eu. discriminate Eu.
      * injection E as <- <-. subst w1.
        exists [], 0%nat. split; [symmetry; apply app_nil_r|].
        split; [reflexivity|]. split; [reflexivity|].
        intros updated Eu. discriminate Eu.
      * injection E as <- <-.
        exists [Sent (clock w)
                  (POST (Some (ChallengeResource.uri challr))
                        (_wrap_in_jws self (PChallengeResponse resp)) None)], 1%nat.
        split; [exact Ht|]. split; [reflexivity|]. split; [reflexivity|].
        intros updated Eu. discriminate Eu.
Qed.


(** ** The polling loop, further *)

Lemma retry_after_value (response : Response.t) (mintime : Z) (w : World) :
  _retry_after response mintime w =
    let after seconds :=
      match datetime_plus_seconds (clock w) seconds with
      | Some due => (Ret (Some due), w)
      | None => (Raise OverflowError, w)
      end in
    match Response.header response "Retry-After" with
    | None => after mintime
    | Some retry_after =>
        match py_int retry_after with
        | Some seconds => after seconds
        | None => (Ret (parse_date retry_after), w)
        end
    end.
Proof.
  unfold _retry_after, bind, datetime_now, ret, raise.
  destruct (Response.header response "Retry-After") as [s|];
    [destruct (py_int s) as [z|];
     [destruct (datetime_plus_seconds (clock w) z)|]
    |destruct (datetime_plus_seconds (clock w) mintime)]; reflexivity.
Qed.

Lemma datetime_plus_seconds_some (now seconds due : Z) :
  datetime_plus_seconds now seconds = Some due ->
  due = now + seconds * 1000000 /\ 0 <= due < DATETIME_END.
Proof.
  unfold datetime_plus_seconds.
  destruct ((seconds / 86400 <? -999999999) || (999999999 <? seconds / 86400));
    [discriminate|].
  destruct ((0 <=? now + seconds * 1000000)
            && (now + seconds * 1000000 <? DATETIME_END)) eqn:Hb; [|discriminate].
  intros E. injection E as <-.
  apply andb_true_iff in Hb. destruct Hb as [Hl Hu].
  apply Z.leb_le in Hl. apply Z.ltb_lt in Hu. split; [reflexivity|lia].
Qed.


Lemma timedelta_seconds_bounds (delta : Z) :
  0 < delta ->
  0 <= timedelta_seconds delta < 86400
  /\ timedelta_seconds delta * 1000000 <= delta
  /\ (delta < 86400 * 1000000 -> delta - timedelta_seconds delta * 1000000 < 1000000).
Proof.
  intros Hd. unfold timedelta_seconds.
  assert (0 <= delta / 1000000) as Hq by (apply Z.div_pos; lia).
  pose proof (Z.mod_pos_bound (delta / 1000000) 86400 ltac:(lia)) as Hm.
  pose proof (Z.mod_le (delta / 1000000) 86400 Hq ltac:(lia)) as Hle.
  pose proof (Z.mul_div_le delta 1000000 ltac:(lia)) as Hmul.
  split; [exact Hm|]. split; [lia|].
  intros Hday.
  assert (delta / 1000000 < 86400) as Hlt
    by (apply Z.div_lt_upper_bound; lia).
  rewrite Z.mod_small by lia.
  pose proof (Z.mod_pos_bound delta 1000000 ltac:(lia)) as Hr.
  pose proof (Z.div_mod delta 1000000 ltac:(lia)) as Hdm. lia.
Qed.


(** X11: with no authorization at all the loop has nothing to do, and
    [authzrs[0]] in [request_issuance] raises IndexError before anything is
    sent. *)
Theorem issuance_for_no_authorization
    (self : Network) (csr : CSR) (mintime : Z) (w : World) :
  poll_and_request_issuance self csr [] mintime w = (Raise IndexError, w)
  /\ request_issuance self csr [] w = (Raise IndexError, w).
Proof. split; reflexivity. Qed.

(** X12: however [poll_and_request_issuance] ends, every GET it has sent
    went to the URI of one of the resources passed in. *)
Theorem polls_target_original_uris
    (self : Network) (csr : CSR) (authzrs : list AuthorizationResource.t)
    (mintime : Z) (w w' : World)
    (out : Outcome (CertificateResource.t * list AuthorizationResource.t)) :
  poll_and_request_issuance self csr authzrs mintime w = (out, w') ->
  exists evs,
    trace w' = (trace w ++ evs)%list
    /\ forall t u accept,
         In (Sent t (GET u accept)) evs ->
         In u (map AuthorizationResource.uri authzrs).
Proof.
  intros E.
  destruct (polls_go_to_enqueued_uris self csr authzrs mintime _ _ _ E) as (evs & T & F).
  exists evs. split; [exact T|].
  intros t u accept Hin. rewrite Forall_forall in F.
  exact (F _ Hin).
Qed.


(** Every snapshot in the dictionary is for the identifier of the resource
    it is kept under, and has that resource's [new_cert_uri]. *)
Definition tracks (updated : Dict) : Prop :=
forall a v, dict_get updated a = Some v ->
  Authorization.identifier (AuthorizationResource.body v)
    = Authorization.identifier (AuthorizationResource.body a)
  /\ AuthorizationResource.new_cert_uri v = AuthorizationResource.new_cert_uri a.

Lemma tracks_set (updated : Dict) (a v : AuthorizationResource.t) :
  tracks updated ->
  Authorization.identifier (AuthorizationResource.body v)
    = Authorization.identifier (AuthorizationResource.body a) ->
  AuthorizationResource.new_cert_uri v = AuthorizationResource.new_cert_uri a ->
  tracks (dict_set updated a v).
Proof.
  intros Ht Hi Hn b u Hg.
  destruct (AuthorizationResource_eq_dec b a) as [->|Hne].
  - rewrite dict_get_set_same in Hg. injection Hg as <-. auto.
  - rewrite dict_get_set_other in Hg by exact Hne. exact (Ht _ _ Hg).
Qed.

Lemma tracks_dict_of (authzrs : list AuthorizationResource.t) :
  tracks (dict_of authzrs).
Proof.
  unfold dict_of.
  assert (forall d, tracks d ->
            tracks (fold_left (fun d a => dict_set d a a) authzrs d)) as Hf.
  { induction authzrs as [|a l IH]; intros d Hd; [exact Hd|].
    simpl. apply IH. apply tracks_set; auto. }
  apply Hf. intros a v Hg. discriminate Hg.
Qed.

Lemma poll_loop_tracks (self : Network) (mintime : Z) (fuel : nat) :
  forall (waiting : list Entry) (updated updated' : Dict) (w w' : World),
  tracks updated ->
  poll_loop fuel self mintime waiting updated w = (Ret updated', w') ->
  tracks updated'.
Proof.
  induction fuel as [|fuel IH]; intros waiting updated updated' w w' Ht E.
  - destruct waiting; simpl in E; [|discriminate].
    unfold ret in E. injection E as <- <-. exact Ht.
  - destruct waiting as [|x waiting].
    + simpl in E. unfold ret in E. injection E as <- <-. exact Ht.
    + cbn [poll_loop] in E. bind_inv E as [wa' u'] w1 Eb.
      eapply IH; [|exact E].
      destruct (loop_body_ret_inv _ _ _ _ _ _ _ _ Eb)
        as (when & a & rest & ua & resp & _ & Hpoll & -> & _).
      destruct (poll_ret_fields _ _ _ _ _ _ Hpoll) as (_ & _ & Hi & _ & Hn & _).
      apply tracks_set; assumption.
Qed.

(** X14: the snapshots [poll_and_request_issuance] hands back line up with
    the authorizations passed in, one for one and in order: each is valid,
    is for the same identifier, and has the same [new_cert_uri] as the
    resource in its place. *)
Theorem snapshots_line_up
    (self : Network) (csr : CSR) (authzrs final : list AuthorizationResource.t)
    (mintime : Z) (w w' : World) (certr : CertificateResource.t) :
  poll_and_request_issuance self csr authzrs mintime w = (Ret (certr, final), w') ->
  Forall2 (fun a v =>
             valid v
             /\ Authorization.identifier (AuthorizationResource.body v)
                = Authorization.identifier (AuthorizationResource.body a)
             /\ AuthorizationResource.new_cert_uri v
                = AuthorizationResource.new_cert_uri a)
          authzrs final.
Proof.
  intros E. unfold poll_and_request_issuance in E.
  bind_inv E as waiting w0 E0.
  rewrite enqueue_all_spec in E0. injection E0 as <- <-.
  bind_inv E as updated w1 Eloop. bind_inv E as certr0 w2 Ereq.
  bind_inv E as final0 w3 Esnap.
  apply lift_ret_inv in Esnap. destruct Esnap as [Esnap ->].
  unfold ret in E. injection E as <- <- <-.
  pose proof (poll_loop_tracks _ _ _ _ _ _ _ _ (tracks_dict_of authzrs) Eloop) as Ht.
  assert (forall a, In a authzrs -> settled updated a) as Hs.
  { eapply poll_loop_settles; [|exact Eloop].
    intros a Ha. left. rewrite map_map. simpl. rewrite map_id. exact Ha. }
  apply snapshots_ok in Esnap. clear Eloop Ereq.
  induction Esnap as [|a v l vs Hav F IH]; constructor.
  - destruct (Hs a (or_introl eq_refl)) as (v' & Hg & Hv).
    assert (v' = v) as -> by congruence.
    destruct (Ht _ _ Hav) as [Hi Hn]. auto.
  - apply IH. intros b Hb. apply Hs. right. exact Hb.
Qed.

(** ** Certificates and registration, further *)

Lemma der_is_not_json : DER_CONTENT_TYPE <> JSON_CONTENT_TYPE.
Proof. discriminate. Qed.

(** X15: [_get_cert], and with it [fetch_chain] and [check_cert], takes a
    certificate only from an answer whose Content-Type is exactly
    [DER_CONTENT_TYPE]: what it returns is such an answer with the
    certificate loaded from its text, fetched by one GET that asks for that
    type; an answer with a success status and any other content type is
    refused with [errors.NetworkError], whatever its body.  The answer is
    the one to a request that went out: a URI that is no URL is refused by
    [requests] before anything is sent, and that too is an
    [errors.NetworkError]. *)
Theorem get_cert_needs_der_content_type (uri : option URI) (w : World) :
  (forall response cert w',
      _get_cert uri w = (Ret (response, cert), w') ->
      Response.header response "content-type" = Some DER_CONTENT_TYPE
      /\ Response.ok response = true
      /\ load_cert_der_string (Response.text response) = Some cert
      /\ trace w' = (trace w ++
           [Sent (clock w) (GET uri (Some DER_CONTENT_TYPE))])%list)
  /\ (forall u dt response rest response_ct,
      uri = Some u ->
      valid_url u = true ->
      script w = Responded dt response :: rest ->
      Response.ok response = true ->
      Response.header response "content-type" = Some response_ct ->
      response_ct <> DER_CONTENT_TYPE ->
      fst (_get_cert uri w)
      = Raise (NetworkError (NEMessage
                 ("Unexpected response Content-Type: " ++ response_ct))))
  /\ (sendable uri = false ->
      _get_cert uri w = (Raise (NetworkError (NERequest "Invalid URL")), w))
  /\ (forall certr, fetch_chain certr = _get_cert (Some (CertificateResource.cert_chain_uri certr))).
Proof.
  split; [|split; [|split]].
  - intros response cert w' E. unfold _get_cert in E.
    bind_inv E as r w1 Eg. bind_inv E as c w2 El.
    apply lift_ret_inv in El. destruct El as [El ->]. apply of_option_ok in El.
    unfold ret in E. injection E as <- <- <-.
    apply get_ret_inv in Eg. destruct Eg as [Eg Ec].
    unfold requests_get in Eg.
    apply requests_call_ret_inv in Eg. destruct Eg as (u & dt & Hu & _ & Ht & _).
    destruct (check_response_ok_inv _ _ Ec) as (Hok & rct & Hct & Hexp).
    destruct (Hexp _ eq_refl) as [->|Hj]; [|destruct (der_is_not_json Hj)].
    auto.
  - intros u dt response rest rct -> Hu Hs Hok Hct Hne.
    unfold _get_cert, _get, bind, except_RequestException, requests_get, requests_call.
    cbn [sendable]. rewrite Hu, Hs. cbn [lift].
    rewrite (check_response_success _ _ _ Hok Hct).
    destruct (String.eqb_spec rct DER_CONTENT_TYPE); [contradiction|].
    reflexivity.
  - intros Hu.
    unfold _get_cert, _get, bind, except_RequestException, requests_get, requests_call.
    rewrite Hu. reflexivity.
  - reflexivity.
Qed.


(** X17: what [request_issuance] hands back.  It has taken the next reply
    of the network as the answer to its one POST: the certificate is the one
    loaded from the text of that answer, which came under
    [DER_CONTENT_TYPE], the chain URI is that answer's "up" link, and the
    request listed the URIs of all the authorizations, in order.  An answer
    that carries a certificate but no "up" link ends the call in KeyError
    although the request has been served. *)
Theorem request_issuance_result
    (self : Network) (csr : CSR) (authzrs : list AuthorizationResource.t)
    (w : World) :
  (forall certr w',
      request_issuance self csr authzrs w = (Ret certr, w') ->
      exists dt response first rest,
        script w = Responded dt response :: script w'
        /\ authzrs = first :: rest
        /\ Response.header response "content-type" = Some DER_CONTENT_TYPE
        /\ load_cert_der_string (Response.text response)
           = Some (CertificateResource.body certr)
        /\ Response.link response "up" = Some (CertificateResource.cert_chain_uri certr)
        /\ posts (skipn (List.length (trace w)) (trace w'))
           = [POST (Some (AuthorizationResource.new_cert_uri first))
                   (_wrap_in_jws self
                      (PCertificateRequest csr (map AuthorizationResource.uri authzrs)))
                   (Some DER_CONTENT_TYPE)])
  /\ (forall first rest response w1 cert,
      authzrs = first :: rest ->
      _post (Some (AuthorizationResource.new_cert_uri first))
            (_wrap_in_jws self
               (PCertificateRequest csr (map AuthorizationResource.uri authzrs)))
            (Some DER_CONTENT_TYPE) (Some DER_CONTENT_TYPE) w = (Ret response, w1) ->
      load_cert_der_string (Response.text response) = Some cert ->
      Response.link response "up" = None ->
      request_issuance self csr authzrs w = (Raise (KeyError "up"), w1)).
Proof.
  split.
  - intros certr w' E.
    destruct (request_issuance_ret_inv _ _ _ _ _ _ E) as (first & rest & -> & _ & Ht).
    unfold request_issuance in E. cbn [hd_error of_option] in E.
    rewrite (bind_step _ _ w w first) in E by reflexivity.
    bind_inv E as response w1 Ep. bind_inv E as body w2 Eb.
    apply lift_ret_inv in Eb. destruct Eb as [Eb ->]. apply of_option_ok in Eb.
    bind_inv E as chain w3 Ec.
    apply lift_ret_inv in Ec. destruct Ec as [Ec ->]. apply of_option_ok in Ec.
    unfold ret in E. injection E as <- <-.
    destruct (post_ret_sent _ _ _ _ _ _ _ Ep) as (_ & dt & Hs).
    apply post_ret_inv in Ep. destruct Ep as [_ Ep].
    destruct (check_response_ok_inv _ _ Ep) as (_ & rct & Hct & Hexp).
    destruct (Hexp _ eq_refl) as [->|Hj]; [|destruct (der_is_not_json Hj)].
    exists dt, response, first, rest. simpl. repeat split; auto.
    rewrite Ht, skipn_app, skipn_all, Nat.sub_diag. reflexivity.
  - intros first rest response w1 cert -> Ep Hc Hup.
    unfold request_issuance. cbn [hd_error of_option].
    rewrite (bind_step _ _ w w first) by reflexivity.
    rewrite (bind_step _ _ _ _ _ Ep). rewrite Hc.
    rewrite (bind_step _ _ w1 w1 cert) by reflexivity.
    rewrite Hup. reflexivity.
Qed.


(** X19: what [register] hands back.  It has taken the next reply of the
    network as the answer to its one POST, sent to [new_reg_uri] with a
    registration of the contact list and no key: the resource's
    [new_authz_uri] is the "next" link of that answer, its URI is that
    answer's Location header (none when the header is missing), and its body
    is decoded from that answer. *)
Theorem register_result
    (self : Network) (contact : list string) (w w' : World)
    (regr : RegistrationResource.t) :
  register self contact w = (Ret regr, w') ->
  trace w' = (trace w ++
    [Sent (clock w)
       (POST (Some (new_reg_uri self))
             (_wrap_in_jws self (PRegistration
                {| Registration.key := None; Registration.contact := contact |}))
             None)])%list
  /\ exists dt response jobj,
       script w = Responded dt response :: script w'
       /\ Response.link response "next" = Some (RegistrationResource.new_authz_uri regr)
       /\ RegistrationResource.uri regr = Response.header response "location"
       /\ Response.json response = Some jobj
       /\ Registration_from_json jobj = Some (RegistrationResource.body regr)
       /\ Response.ok response = true
       /\ (debug = false \/ Response.status_code response = CREATED).
Proof.
  intros E. unfold register in E.
  bind_inv E as response w1 Ep. bind_inv E as [] w2 Ea.
  apply assert_ret_inv in Ea. destruct Ea as [-> Ha].
  bind_inv E as regr0 w3 Er.
  apply lift_ret_inv in Er. destruct Er as [Er ->].
  destruct (option_string_eq_dec _ _); [destruct (contact_eq_dec _ _)|];
    unfold ret, raise in E; try discriminate.
  injection E as <- <-.
  destruct (post_ret_sent _ _ _ _ _ _ _ Ep) as (Ht & dt & Hs).
  split; [exact Ht|].
  destruct (regr_from_response_ok _ _ _ _ Er) as (jobj & body & Hj & Hb & Hbody & Huri & _).
  pose proof (regr_from_response_new_authz_uri _ _ _ _ Er) as Hn. simpl in Hn.
  exists dt, response, jobj. subst body.
  split; [exact Hs|]. split; [exact Hn|]. split.
  { rewrite Huri. unfold location_or.
    destruct (Response.header response "location"); reflexivity. }
  split; [exact Hj|]. split; [exact Hb|]. split.
  - exact (proj1 (proj2 (http_outcomes _ _ _ _ _) _ _ Ep)).
  - destruct Ha as [Ha|Ha]; [left; exact Ha | right; apply Z.eqb_eq; exact Ha].
Qed.

(** X20: however [poll_and_request_issuance] ends, it has POSTed nothing
    at all, or exactly the one certificate request, and that only after the
    loop had ended with a valid latest snapshot for every authorization
    passed in. *)
Theorem issuance_requested_only_when_all_valid
    (self : Network) (csr : CSR) (authzrs : list AuthorizationResource.t)
    (mintime : Z) (w w' : World)
    (out : Outcome (CertificateResource.t * list AuthorizationResource.t)) :
  poll_and_request_issuance self csr authzrs mintime w = (out, w') ->
  exists evs,
    trace w' = (trace w ++ evs)%list
    /\ (posts evs = []
        \/ exists first rest updated w1,
             authzrs = first :: rest
             /\ poll_loop (S (List.length (script w))) self mintime
                          (map (fun a => (clock w, a)) authzrs) (dict_of authzrs) w
                = (Ret updated, w1)
             /\ (forall a, In a authzrs -> settled updated a)
             /\ posts evs =
                  [POST (Some (AuthorizationResource.new_cert_uri first))
                        (_wrap_in_jws self
                           (PCertificateRequest csr
                              (map AuthorizationResource.uri authzrs)))
                        (Some DER_CONTENT_TYPE)]).
Proof.
  intros E.
  destruct (poll_loop (S (List.length (script w))) self mintime
              (map (fun a => (clock w, a)) authzrs) (dict_of authzrs) w)
    as [[updated|e|] w1] eqn:Eloop.
  - destruct authzrs as [|first rest].
    + cbv in E. injection E as <- <-. exists []. split; [symmetry; apply app_nil_r|].
      left. reflexivity.
    + destruct (issuance_after_loop self csr first rest mintime w w1 updated Eloop)
        as (out0 & w0 & polls & E0 & P & T).
      rewrite E0 in E. injection E as <- <-.
      destruct (valid_url (AuthorizationResource.new_cert_uri first)).
      * eexists. split; [exact T|]. right.
        exists first, rest, updated, w1. split; [reflexivity|].
        split; [first [exact Eloop | reflexivity]|].
        split.
        -- eapply poll_loop_settles; [|exact Eloop].
           intros a Ha. left. rewrite map_map. simpl map at 1. rewrite map_id. exact Ha.
        -- rewrite posts_app, P. reflexivity.
      * exists polls. split; [exact T|]. left. exact P.
  - destruct (emits_poll_loop _ _ _ _ _ _ _ _ Eloop) as (evs & T & F).
    unfold poll_and_request_issuance in E.
    rewrite (bind_step _ _ _ _ _ (enqueue_all_spec authzrs w)) in E.
    rewrite (bind_raise _ _ _ _ _ Eloop) in E. injection E as <- <-.
    exists evs. split; [exact T|]. left. exact (polls_have_no_posts _ _ F).
  - destruct (emits_poll_loop _ _ _ _ _ _ _ _ Eloop) as (evs & T & F).
    unfold poll_and_request_issuance in E.
    rewrite (bind_step _ _ _ _ _ (enqueue_all_spec authzrs w)) in E.
    unfold bind at 1 in E. rewrite Eloop in E. injection E as <- <-.
    exists evs. split; [exact T|]. left. exact (polls_have_no_posts _ _ F).
Qed.
End Further.

(** * Further concrete runs *)

Definition problem_json : JSON :=
JObj [("type", JStr "urn:acme:error:unauthorized"); ("detail", JStr "no such account")].

(** A 403 with a problem record is raised as that record; a 500 with an
    HTML page, and a 403 whose body is [null], as [errors.NetworkError]. *)
Lemma failure_status_examples :
  @_check_response (sample true)
     (response_with 403 JSON_ERROR_CONTENT_TYPE [] [] (Some problem_json))
     (Some JSON_CONTENT_TYPE)
  = Err (Messages2Error {| error_typ := "urn:acme:error:unauthorized";
                           error_detail := "no such account" |})
  /\ (exists e,
       @_check_response (sample true) (response_with 500 "text/html" [] [] None) None
         = Err e
       /\ fault_of e = Some TransportFault)
  /\ @_check_response (sample true)
        (response_with 403 JSON_ERROR_CONTENT_TYPE [] [] (Some JNull))
        (Some JSON_CONTENT_TYPE)
     = Err (NetworkError (NEResponse
              (response_with 403 JSON_ERROR_CONTENT_TYPE [] [] (Some JNull)))).
Proof.
  split; [|split].
  - exact (proj1 (@failure_status_is_always_raised (sample true)
                    (response_with 403 JSON_ERROR_CONTENT_TYPE [] [] (Some problem_json))
                    (Some JSON_CONTENT_TYPE) JSON_ERROR_CONTENT_TYPE eq_refl eq_refl)).
  - exact (proj1 (proj2 (@failure_status_is_always_raised (sample true)
                    (response_with 500 "text/html" [] [] None)
                    None "text/html" eq_refl eq_refl)) (or_introl eq_refl)).
  - exact (proj1 (@failure_status_is_always_raised (sample true)
                    (response_with 403 JSON_ERROR_CONTENT_TYPE [] [] (Some JNull))
                    (Some JSON_CONTENT_TYPE) JSON_ERROR_CONTENT_TYPE eq_refl eq_refl)).
Defined.

(** A GET that is answered, and a POST whose connection fails. *)
Lemma http_layer_examples :
  (Response.ok (authz_response "valid" []) = true
   /\ exists u dt,
        Some "https://ca/authz/1" = Some u
        /\ script (answering (authz_response "valid" []))
           = Responded dt (authz_response "valid" []) :: []%list)
  /\ classifier_fault (NetworkError (NERequest "connection refused")).
Proof.
  split.
  - exact (proj1 (@http_layer_outcomes (sample true) (Some "https://ca/authz/1")
                    (@_wrap_in_jws account (PChallengeResponse "r"))
                    (Some JSON_CONTENT_TYPE) None
                    (answering (authz_response "valid" [])))
                 (Ret (authz_response "valid" []))
                 (answered (GET (Some "https://ca/authz/1") None)) eq_refl).
  - exact (proj2 (@http_layer_outcomes (sample true) (Some "https://ca/new-reg")
                    (@_wrap_in_jws account (PChallengeResponse "r"))
                    (Some JSON_CONTENT_TYPE) None
                    (world_at 0 [Failed 0 "connection refused"]))
                 (Raise (NetworkError (NERequest "connection refused")))
                 (answered (POST (Some "https://ca/new-reg")
                              (@_wrap_in_jws account (PChallengeResponse "r")) None))
                 eq_refl).
Defined.

Definition authz_links : list (string * URI) := [("next", "https://ca/new-cert")].

(** The answer to a new authorization for example.com. *)
Definition new_authz_response (k : string) : Response.t :=
response_with 201 JSON_CONTENT_TYPE [("Location", "https://ca/authz/1")] authz_links
  (Some (JObj [("identifier", JStr "example.com"); ("key", JStr k);
               ("status", JStr "pending")])).

(** An authorization under the account's key is returned; one under
    another key is raised as UnexpectedUpdate. *)
Lemma authzr_from_response_examples :
  (Authorization.key (AuthorizationResource.body a1) = Some (public (key account))
   /\ Authorization.identifier (AuthorizationResource.body a1) = "example.com"
   /\ AuthorizationResource.uri a1 = location_or (new_authz_response "K") None
   /\ Response.link (new_authz_response "K") "next"
      = Some (AuthorizationResource.new_cert_uri a1))
  /\ @_authzr_from_response (sample true) account (new_authz_response "OTHER")
        "example.com" None None
     = Err (UnexpectedUpdate (OffAuthzr
              {| AuthorizationResource.body :=
                   {| Authorization.identifier := "example.com";
                      Authorization.key := Some "OTHER";
                      Authorization.status := Some "pending" |};
                 AuthorizationResource.uri := location_or (new_authz_response "OTHER") None;
                 AuthorizationResource.new_cert_uri := "https://ca/new-cert" |})).
Proof.
  split.
  - exact (proj1 (@authzr_from_response_fields (sample true) account
                    (new_authz_response "K") "example.com" None None) a1 eq_refl).
  - apply (proj2 (@authzr_from_response_fields (sample true) account
                    (new_authz_response "OTHER") "example.com" None None)
                 "https://ca/new-cert"
                 (JObj [("identifier", JStr "example.com"); ("key", JStr "OTHER");
                        ("status", JStr "pending")])
                 {| Authorization.identifier := "example.com";
                    Authorization.key := Some "OTHER";
                    Authorization.status := Some "pending" |});
      try reflexivity.
    left. discriminate.
Defined.

(** A poll answered "valid" with a Location header of its own. *)
Lemma poll_example :
  exists updated_authzr response w',
    @poll (sample true) account a1
       (answering (authz_response "valid" [("Location", "https://ca/authz/moved")]))
      = (Ret (updated_authzr, response), w')
    /\ AuthorizationResource.uri updated_authzr = Some "https://ca/authz/moved"
    /\ (trace w' = (trace (answering (authz_response "valid"
                                        [("Location", "https://ca/authz/moved")]))
                    ++ [Sent (clock (answering (authz_response "valid"
                                        [("Location", "https://ca/authz/moved")])))
                          (GET (AuthorizationResource.uri a1) None)])%list
        /\ Response.ok response = true
        /\ Authorization.identifier (AuthorizationResource.body updated_authzr)
           = Authorization.identifier (AuthorizationResource.body a1)
        /\ Authorization.key (AuthorizationResource.body updated_authzr)
           = Some (public (key account))
        /\ AuthorizationResource.new_cert_uri updated_authzr
           = AuthorizationResource.new_cert_uri a1
        /\ AuthorizationResource.uri updated_authzr
           = location_or response (AuthorizationResource.uri a1)).
Proof.
  pose proof (@poll_keeps_identity (sample true) account a1) as T.
  eexists ?[ua], ?[r], ?[w'].
  assert (@poll (sample true) account a1
            (answering (authz_response "valid" [("Location", "https://ca/authz/moved")]))
          = (Ret (?ua, ?r), ?w')) as E by (vm_compute; reflexivity).
  split; [exact E|]. split; [reflexivity | exact (T _ _ _ _ E)].
Defined.

(** The server answers an update with another key and no links: the
    update is returned as it came, under the old [new_authz_uri]. *)
Lemma update_registration_example :
  exists updated_regr w',
    @update_registration (sample true) account (regr_sent "K")
       (answering (registration_response "OTHER" contact0 []))
      = (Ret updated_regr, w')
    /\ Registration.key (RegistrationResource.body updated_regr) = Some "OTHER"
    /\ (RegistrationResource.new_authz_uri updated_regr
          = RegistrationResource.new_authz_uri (regr_sent "K")
        /\ trace w' = (trace (answering (registration_response "OTHER" contact0 [])) ++
             [Sent (clock (answering (registration_response "OTHER" contact0 [])))
                (POST (RegistrationResource.uri (regr_sent "K"))
                      (@_wrap_in_jws account
                         (PRegistration (RegistrationResource.body (regr_sent "K"))))
                      None)])%list
        /\ exists dt response jobj,
             script (answering (registration_response "OTHER" contact0 []))
               = Responded dt response :: script w'
             /\ RegistrationResource.uri updated_regr
               = location_or response (RegistrationResource.uri (regr_sent "K"))
             /\ Response.json response = Some jobj
             /\ @Registration_from_json (sample true) jobj
                = Some (RegistrationResource.body updated_regr)).
Proof.
  pose proof (proj1 (@update_registration_keeps_new_authz_uri (sample true) account
                       (regr_sent "K")
                       (answering (registration_response "OTHER" contact0 [])))) as T.
  eexists ?[r], ?[w'].
  assert (@update_registration (sample true) account (regr_sent "K")
            (answering (registration_response "OTHER" contact0 []))
          = (Ret ?r, ?w')) as E by (vm_compute; reflexivity).
  split; [exact E|]. split; [reflexivity | exact (T _ _ E)].
Defined.

(** The same registration answered "200 OK": both flows end in
    AssertionError. *)
Lemma created_status_example :
  @register (sample true) account contact0
     (answering (response_with 200 JSON_CONTENT_TYPE [] [("next", "https://ca/new-authz")]
                   (Some (registration_json "K" contact0))))
  = (Raise AssertionError, answered new_reg_request).
Proof.
  apply (proj1 (@created_status_is_asserted (sample true) account
                  (answering (response_with 200 JSON_CONTENT_TYPE []
                                [("next", "https://ca/new-authz")]
                                (Some (registration_json "K" contact0))))
                  (answered new_reg_request)
                  (response_with 200 JSON_CONTENT_TYPE []
                     [("next", "https://ca/new-authz")]
                     (Some (registration_json "K" contact0)))
                  eq_refl ltac:(discriminate)) contact0).
  reflexivity.
Defined.

(** A new authorization for example.com. *)
Lemma request_challenges_example :
  exists authzr w',
    @request_challenges (sample true) account "example.com" (regr_sent "K")
       (answering (new_authz_response "K")) = (Ret authzr, w')
    /\ (Authorization.identifier (AuthorizationResource.body authzr) = "example.com"
        /\ Authorization.key (AuthorizationResource.body authzr)
           = Some (public (key account))
        /\ trace w' = (trace (answering (new_authz_response "K")) ++
             [Sent (clock (answering (new_authz_response "K")))
                (POST (Some (RegistrationResource.new_authz_uri (regr_sent "K")))
                      (@_wrap_in_jws account (PAuthorization
                         {| Authorization.identifier := "example.com";
                            Authorization.key := None;
                            Authorization.status := None |}))
                      None)])%list
        /\ exists dt response,
             script (answering (new_authz_response "K")) = Responded dt response :: script w'
             /\ Response.link response "next"
               = Some (AuthorizationResource.new_cert_uri authzr)
             /\ AuthorizationResource.uri authzr = Response.header response "location"
             /\ (@debug (sample true) = false
                 \/ Response.status_code response = CREATED)).
Proof.
  pose proof (@request_challenges_result (sample true) account "example.com"
                (regr_sent "K") (answering (new_authz_response "K"))) as T.
  eexists ?[a], ?[w'].
  assert (@request_challenges (sample true) account "example.com" (regr_sent "K")
            (answering (new_authz_response "K")) = (Ret ?a, ?w')) as E
    by (vm_compute; reflexivity).
  split; [exact E | exact (T _ _ E)].
Defined.

Definition challr1 : ChallengeResource.t :=
{| ChallengeResource.body := {| Challenge.typ := "simpleHttps"; Challenge.state := "new" |};
   ChallengeResource.uri := "https://ca/chall/2" |}.




(** The run of two authorizations: its three GETs are at their two URIs. *)
Lemma polls_target_example :
  exists out w',
    @poll_and_request_issuance (sample false) sorted_list_heapq
       account "csr" [a1; a2] 5 two_authorizations = (out, w')
    /\ returned out = true
    /\ exists evs,
         trace w' = (trace two_authorizations ++ evs)%list
         /\ forall t u accept,
              In (Sent t (GET u accept)) evs ->
              In u (map AuthorizationResource.uri [a1; a2]).
Proof.
  pose proof (@polls_target_original_uris (sample false) sorted_list_heapq
                account "csr" [a1; a2] 5 two_authorizations) as T.
  eexists ?[o], ?[w'].
  assert (@poll_and_request_issuance (sample false) sorted_list_heapq
            account "csr" [a1; a2] 5 two_authorizations = (?o, ?w')) as E
    by (vm_compute; reflexivity).
  split; [exact E|]. split; [reflexivity | exact (T _ _ E)].
Defined.


(** The snapshots of the run: valid, for example.com, under the same
    [new_cert_uri]. *)
Lemma snapshots_example :
  exists certr final w',
    @poll_and_request_issuance (sample false) sorted_list_heapq
       account "csr" [a1; a2] 5 two_authorizations = (Ret (certr, final), w')
    /\ Forall2 (fun a v =>
                  valid v
                  /\ Authorization.identifier (AuthorizationResource.body v)
                     = Authorization.identifier (AuthorizationResource.body a)
                  /\ AuthorizationResource.new_cert_uri v
                     = AuthorizationResource.new_cert_uri a)
               [a1; a2] final.
Proof.
  pose proof (@snapshots_line_up (sample false) sorted_list_heapq
                account "csr" [a1; a2]) as T.
  eexists ?[c], ?[f], ?[w'].
  assert (@poll_and_request_issuance (sample false) sorted_list_heapq
            account "csr" [a1; a2] 5 two_authorizations = (Ret (?c, ?f), ?w')) as E
    by (vm_compute; reflexivity).
  split; [exact E | exact (T _ _ _ _ _ E)].
Defined.

(** The chain under the content type of the code is taken; under the
    registered type of a DER certificate it is refused; at a URI without a
    scheme nothing is asked. *)
Lemma get_cert_examples :
  (Response.header cert_response "content-type" = Some DER_CONTENT_TYPE
   /\ Response.ok cert_response = true
   /\ @load_cert_der_string (sample true) (Response.text cert_response) = Some "DER"
   /\ trace (answered (GET (Some "https://ca/chain") (Some DER_CONTENT_TYPE)))
      = (trace (answering cert_response) ++
         [Sent (clock (answering cert_response))
            (GET (Some "https://ca/chain") (Some DER_CONTENT_TYPE))])%list)
  /\ fst (@_get_cert (sample true) (Some "https://ca/chain")
            (answering (response_with 200 "application/pkix-cert" [] [] None)))
     = Raise (NetworkError (NEMessage
                ("Unexpected response Content-Type: " ++ "application/pkix-cert")))
  /\ @_get_cert (sample true) (Some "ca/chain") (answering cert_response)
     = (Raise (NetworkError (NERequest "Invalid URL")), answering cert_response).
Proof.
  split; [|split].
  - exact (proj1 (@get_cert_needs_der_content_type (sample true)
                    (Some "https://ca/chain") (answering cert_response))
                 cert_response "DER"
                 (answered (GET (Some "https://ca/chain") (Some DER_CONTENT_TYPE)))
                 eq_refl).
  - apply (proj1 (proj2 (@get_cert_needs_der_content_type (sample true)
                    (Some "https://ca/chain")
                    (answering (response_with 200 "application/pkix-cert" [] [] None))))
                 "https://ca/chain" 0%N
                 (response_with 200 "application/pkix-cert" [] [] None) []
                 "application/pkix-cert");
      try reflexivity.
    discriminate.
  - exact (proj1 (proj2 (proj2 (@get_cert_needs_der_content_type (sample true)
                    (Some "ca/chain") (answering cert_response)))) eq_refl).
Defined.

(** A certificate served without a Location header. *)
Definition cert_without_location : Response.t :=
{| Response.status_code := 200;
   Response.headers := [("Content-Type", DER_CONTENT_TYPE)];
   Response.links := [];
   Response.text := "NEW";
   Response.json := None |}.


(** A certificate request answered with the certificate and its chain
    link; and one answered without the link. *)
Lemma request_issuance_examples :
  (exists certr w',
     @request_issuance (sample true) account "csr" [a1; a2] (answering cert_response)
       = (Ret certr, w')
     /\ exists dt response first rest,
          script (answering cert_response) = Responded dt response :: script w'
          /\ [a1; a2] = first :: rest
          /\ Response.header response "content-type" = Some DER_CONTENT_TYPE
          /\ @load_cert_der_string (sample true) (Response.text response)
             = Some (CertificateResource.body certr)
          /\ Response.link response "up" = Some (CertificateResource.cert_chain_uri certr)
          /\ posts (skipn (List.length (trace (answering cert_response))) (trace w'))
             = [POST (Some (AuthorizationResource.new_cert_uri first))
                     (@_wrap_in_jws account
                        (PCertificateRequest "csr"
                           (map AuthorizationResource.uri [a1; a2])))
                     (Some DER_CONTENT_TYPE)])
  /\ @request_issuance (sample true) account "csr" [a1; a2]
       (answering cert_without_location)
     = (Raise (KeyError "up"), answered new_cert_request).
Proof.
  split.
  - pose proof (proj1 (@request_issuance_result (sample true) account "csr" [a1; a2]
                         (answering cert_response))) as T.
    eexists ?[c], ?[w'].
    assert (@request_issuance (sample true) account "csr" [a1; a2]
              (answering cert_response) = (Ret ?c, ?w')) as E
      by (vm_compute; reflexivity).
    split; [exact E | exact (T _ _ E)].
  - exact (proj2 (@request_issuance_result (sample true) account "csr" [a1; a2]
                    (answering cert_without_location))
                 a1 [a2] cert_without_location (answered new_cert_request) "NEW"
                 eq_refl eq_refl eq_refl eq_refl).
Defined.

(** The sample certificate under a URI without a scheme. *)
Definition certr_without_scheme : CertificateResource.t :=
{| CertificateResource.authzrs := CertificateResource.authzrs certr0;
   CertificateResource.body := CertificateResource.body certr0;
   CertificateResource.uri := Some "ca/cert/1";
   CertificateResource.cert_chain_uri := CertificateResource.cert_chain_uri certr0 |}.


(** The registration of "K" answered "201 Created" with a "next" link. *)
Lemma register_result_example :
  exists regr w',
    @register (sample true) account contact0
       (answering (registration_response "K" contact0 [("next", "https://ca/new-authz")]))
      = (Ret regr, w')
    /\ RegistrationResource.new_authz_uri regr = "https://ca/new-authz"
    /\ (trace w' = (trace (answering (registration_response "K" contact0
                                        [("next", "https://ca/new-authz")])) ++
          [Sent (clock (answering (registration_response "K" contact0
                                     [("next", "https://ca/new-authz")])))
             (POST (Some (new_reg_uri account))
                   (@_wrap_in_jws account (PRegistration
                      {| Registration.key := None; Registration.contact := contact0 |}))
                   None)])%list
        /\ exists dt response jobj,
             script (answering (registration_response "K" contact0
                                  [("next", "https://ca/new-authz")]))
               = Responded dt response :: script w'
             /\ Response.link response "next"
               = Some (RegistrationResource.new_authz_uri regr)
             /\ RegistrationResource.uri regr = Response.header response "location"
             /\ Response.json response = Some jobj
             /\ @Registration_from_json (sample true) jobj
                = Some (RegistrationResource.body regr)
             /\ Response.ok response = true
             /\ (@debug (sample true) = false
                 \/ Response.status_code response = CREATED)).
Proof.
  pose proof (@register_result (sample true) account contact0
                (answering (registration_response "K" contact0
                              [("next", "https://ca/new-authz")]))) as T.
  eexists ?[r], ?[w'].
  assert (@register (sample true) account contact0
            (answering (registration_response "K" contact0
                          [("next", "https://ca/new-authz")])) = (Ret ?r, ?w')) as E
    by (vm_compute; reflexivity).
  split; [exact E|]. split; [reflexivity | exact (T _ _ E)].
Defined.

(** The run of two authorizations, and the same run cut short by a server
    that stops answering after the first poll. *)
Lemma issuance_requested_example :
  (exists out w',
     @poll_and_request_issuance (sample false) sorted_list_heapq
        account "csr" [a1; a2] 5 two_authorizations = (out, w')
     /\ exists evs,
          trace w' = (trace two_authorizations ++ evs)%list
          /\ (posts evs = []
              \/ exists first rest updated w1,
                   [a1; a2] = first :: rest
                   /\ @poll_loop (sample false) sorted_list_heapq
                         (S (List.length (script two_authorizations))) account 5
                         (map (fun a => (clock two_authorizations, a)) [a1; a2])
                         (dict_of [a1; a2]) two_authorizations
                      = (Ret updated, w1)
                   /\ (forall a, In a [a1; a2] -> settled updated a)
                   /\ posts evs =
                        [POST (Some (AuthorizationResource.new_cert_uri first))
                              (@_wrap_in_jws account
                                 (PCertificateRequest "csr"
                                    (map AuthorizationResource.uri [a1; a2])))
                              (Some DER_CONTENT_TYPE)]))
  /\ posts (trace (snd (@poll_and_request_issuance (sample false) sorted_list_heapq
                          account "csr" [a1; a2] 5
                          (world_at 0 [Responded 0 (authz_response "pending" [])]))))
     = [].
Proof.
  split.
  - pose proof (@issuance_requested_only_when_all_valid (sample false) sorted_list_heapq
                  account "csr" [a1; a2] 5 two_authorizations) as T.
    eexists ?[o], ?[w'].
    assert (@poll_and_request_issuance (sample false) sorted_list_heapq
              account "csr" [a1; a2] 5 two_authorizations = (?o, ?w')) as E
      by (vm_compute; reflexivity).
    split; [exact E | exact (T _ _ E)].
  - vm_compute. reflexivity.
Defined.
